(** * QR code service: a shallow embedding of the Python sources

    Part I embeds the program, one module per source file:
    - [Py]          the fragment of Python's built-in [str], [bytes] and
                    exception behaviour the sources rely on;
    - [Re]          regular expressions, as [utils/validators.py] and
                    [models/requests.py] use them;
    - [Requests]    [models/requests.py];
    - [Validators]  [utils/validators.py];
    - [Config], [Clock], [Jose], [AuthModels], [AuthService]
                    [config.py], the clock, the token library,
                    [models/auth.py] and [services/auth.py];
    - [Http], [Middleware]  the HTTP exchange and [middleware/auth.py];
    - [Generator], [QrEndpoint], [App]
                    [services/qr_generator.py], [api/endpoints/qr.py]
                    and [main.py];
    - [Parameters], [TokenEndpoint]
                    the parameter check of [utils/validators.py] and
                    [api/endpoints/auth.py].

    Part II fixes the vocabulary of the statements, models of the library
    interfaces and sample inputs.  Part III holds the theorems. *)

From Stdlib Require Import String Ascii NArith ZArith Bool Lia Arith List.
From Stdlib Require Import DecimalNat DecimalString.
Import ListNotations.

Set Implicit Arguments.

(* ===================================================================== *)
(** * Part I. Definitions *)
(* ===================================================================== *)

(** ** Python values *)

Module Py.
Local Open Scope N_scope.

(** A Python [str] is a sequence of Unicode code points; [len] counts
    code points, not bytes. *)
Definition codepoint := N.
Definition str := list codepoint.

(** [bytes]: a sequence of integers below 256. *)
Definition bytes := list N.

(** A source literal (all literals of the repository are ASCII). *)
Definition lit (s : string) : str :=
  map N_of_ascii (list_ascii_of_string s).

(** The double quote, for f-strings that contain one. *)
Definition dq : str := [34].

Definition cp_eqb (a b : codepoint) : bool := N.eqb a b.

Fixpoint str_eqb (a b : str) : bool :=
  match a, b with
  | [], [] => true
  | x :: a', y :: b' => cp_eqb x y && str_eqb a' b'
  | _, _ => false
  end.

(** [s.startswith(p)] *)
Fixpoint startswith (s p : str) {struct p} : bool :=
  match p, s with
  | [], _ => true
  | c :: p', d :: s' => cp_eqb c d && startswith s' p'
  | _ :: _, [] => false
  end.

(** [s.startswith((p1, p2, ...))] *)
Definition startswith_any (s : str) (ps : list str) : bool :=
  existsb (startswith s) ps.

(** [sep.join(parts)] *)
Fixpoint join (sep : str) (parts : list str) : str :=
  match parts with
  | [] => []
  | [p] => p
  | p :: rest => p ++ sep ++ join sep rest
  end.

(** [s.split(sep)] for a one-character separator: every occurrence cuts. *)
Fixpoint split_on (sep : codepoint) (s : str) : list str :=
  match s with
  | [] => [[]]
  | c :: s' =>
      if cp_eqb c sep then [] :: split_on sep s'
      else match split_on sep s' with
           | [] => [[c]]
           | w :: ws => (c :: w) :: ws
           end
  end.

(** [str.isspace] for one character, which is also [\s] of the [re]
    module on [str] patterns: CPython's [_PyUnicode_IsWhitespace]. *)
Definition isspace (c : codepoint) : bool :=
  ((9 <=? c) && (c <=? 13)) || ((28 <=? c) && (c <=? 32))
  || (c =? 133) || (c =? 160) || (c =? 5760)
  || ((8192 <=? c) && (c <=? 8202))
  || (c =? 8232) || (c =? 8233) || (c =? 8239) || (c =? 8287)
  || (c =? 12288).

Fixpoint lstrip (s : str) : str :=
  match s with
  | c :: s' => if isspace c then lstrip s' else s
  | [] => []
  end.

Definition rstrip (s : str) : str := rev (lstrip (rev s)).

(** [s.strip()] *)
Definition strip (s : str) : str := rstrip (lstrip s).

(** Truthiness of a [str]: the empty string is false. *)
Definition truthy (s : str) : bool :=
  match s with [] => false | _ :: _ => true end.

(** *** [str(n)] and [f"{n}"] for integers *)

Fixpoint digits_of_uint (d : Decimal.uint) : str :=
  match d with
  | Decimal.Nil => []
  | Decimal.D0 d => 48 :: digits_of_uint d
  | Decimal.D1 d => 49 :: digits_of_uint d
  | Decimal.D2 d => 50 :: digits_of_uint d
  | Decimal.D3 d => 51 :: digits_of_uint d
  | Decimal.D4 d => 52 :: digits_of_uint d
  | Decimal.D5 d => 53 :: digits_of_uint d
  | Decimal.D6 d => 54 :: digits_of_uint d
  | Decimal.D7 d => 55 :: digits_of_uint d
  | Decimal.D8 d => 56 :: digits_of_uint d
  | Decimal.D9 d => 57 :: digits_of_uint d
  end.

Definition str_of_nat (n : nat) : str := digits_of_uint (Nat.to_uint n).

Definition str_of_Z (z : Z) : str :=
  match z with
  | Z0 => lit "0"
  | Zpos p => digits_of_uint (Pos.to_uint p)
  | Zneg p => lit "-" ++ digits_of_uint (Pos.to_uint p)
  end.

(** *** [s.encode('utf-8')]

    One code point becomes one to four bytes.  A lone surrogate
    (U+D800..U+DFFF) cannot be encoded: CPython raises
    [UnicodeEncodeError], here [None].  Code points above U+10FFFF do not
    occur in a [str]; the encoder refuses them too. *)
Definition is_surrogate (c : codepoint) : bool :=
  (55296 <=? c) && (c <=? 57343).

Definition cont (c : N) : N := N.lor 128 (N.land c 63).

Definition utf8_char (c : codepoint) : option bytes :=
  if (c <? 128) then Some [c]
  else if (c <? 2048) then
    Some [N.lor 192 (N.shiftr c 6); cont c]
  else if is_surrogate c then None
  else if (c <? 65536) then
    Some [N.lor 224 (N.shiftr c 12); cont (N.shiftr c 6); cont c]
  else if (c <=? 1114111) then
    Some [N.lor 240 (N.shiftr c 18); cont (N.shiftr c 12);
          cont (N.shiftr c 6); cont c]
  else None.

Fixpoint encode_utf8 (s : str) : option bytes :=
  match s with
  | [] => Some []
  | c :: s' =>
      match utf8_char c, encode_utf8 s' with
      | Some b, Some bs => Some (b ++ bs)
      | _, _ => None
      end
  end.

(** *** Exceptions

    An exception is its class and its message ([str(e)]).  [HTTPException]
    carries the fields FastAPI reads back. *)
Inductive exn_class :=
| ValueError
| UnicodeEncodeError        (* a ValueError *)
| PydanticValidationError   (* a ValueError *)
| RuntimeError
| UnboundLocalError
| JWTError
| ExpiredSignatureError     (* a JWTError *)
| OtherException.           (* any other subclass of Exception *)

(** [detail=] of an [HTTPException]: a string or a dict of strings. *)
Inductive detail :=
| DetailStr (s : str)
| DetailDict (d : list (str * str)).

Inductive exn :=
| Exn (c : exn_class) (msg : str)
| HTTPException (status_code : Z) (d : detail) (headers : list (str * str)).

Definition str_of_exn (e : exn) : str :=
  match e with
  | Exn _ msg => msg
  | HTTPException _ (DetailStr s) _ => s
  | HTTPException _ (DetailDict _) _ => []
  end.

(** [isinstance(e, ValueError)], [isinstance(e, RuntimeError)],
    [isinstance(e, JWTError)]: what an [except] clause of that class
    catches. *)
Definition is_ValueError (e : exn) : bool :=
  match e with
  | Exn ValueError _ | Exn UnicodeEncodeError _
  | Exn PydanticValidationError _ => true
  | _ => false
  end.

Definition is_RuntimeError (e : exn) : bool :=
  match e with Exn RuntimeError _ => true | _ => false end.

Definition is_JWTError (e : exn) : bool :=
  match e with
  | Exn JWTError _ | Exn ExpiredSignatureError _ => true
  | _ => false
  end.

Definition is_HTTPException (e : exn) : bool :=
  match e with HTTPException _ _ _ => true | _ => false end.

(** A computation that returns or raises. *)
Inductive result (A : Type) :=
| Return (a : A)
| Raise (e : exn).
Arguments Return {A} a.
Arguments Raise {A} e.

Definition bind {A B} (r : result A) (k : A -> result B) : result B :=
  match r with
  | Return a => k a
  | Raise e => Raise e
  end.

(** [try: body  except <class> as e: handler]. *)
Definition try_except {A} (body : result A) (catches : exn -> bool)
    (handler : exn -> result A) : result A :=
  match body with
  | Return a => Return a
  | Raise e => if catches e then handler e else Raise e
  end.

End Py.
Import Py.

Notation "x <- c ;; k" := (bind c (fun x => k))
  (at level 61, c at next level, right associativity).

(** ** Regular expressions ([import re])

    The patterns of the repository use literals, character classes,
    [?], [+], bounded repetition, alternation and the anchors [^] and [$];
    they are matched with [re.match].  For such patterns a match exists
    exactly when the subject belongs to the pattern's language, which
    derivatives decide. *)

Module Re.
Local Open Scope N_scope.

(** The part of the Unicode character database that [\d] consults beyond
    ASCII (general category Nd).  The table ships with the interpreter, not
    with the repository, so it is a parameter. *)
Class UnicodeData := { uni_decimal : codepoint -> bool }.

(** An interpreter whose table has no decimal digit beyond ASCII. *)
Definition ascii_digits_only : UnicodeData :=
  {| uni_decimal := fun _ => false |}.

Inductive regex :=
| Void                                  (* matches nothing *)
| Eps                                   (* the empty string *)
| Sym (p : codepoint -> bool)           (* one character of a class *)
| Cat (r s : regex)
| Alt (r s : regex)
| Star (r : regex)
| Rep (lo hi : nat) (r : regex).        (* r{lo,hi} *)

(** The language of a pattern.  [r{lo,hi}] is between [lo] and [hi]
    copies of [r]: each copy lowers both bounds by one, and the repetition
    may stop once the lower bound has reached zero. *)
Inductive matches : regex -> str -> Prop :=
| MEps : matches Eps []
| MSym p c : p c = true -> matches (Sym p) [c]
| MCat r s u v : matches r u -> matches s v -> matches (Cat r s) (u ++ v)
| MAltL r s u : matches r u -> matches (Alt r s) u
| MAltR r s u : matches s u -> matches (Alt r s) u
| MStar0 r : matches (Star r) []
| MStarS r u v :
    matches r u -> matches (Star r) v -> matches (Star r) (u ++ v)
| MRep0 hi r : matches (Rep 0 hi r) []
| MRepS lo hi r u v :
    matches r u -> matches (Rep (Nat.pred lo) hi r) v ->
    matches (Rep lo (S hi) r) (u ++ v).

(** Whether the empty string matches. *)
Fixpoint nullable (r : regex) : bool :=
  match r with
  | Void => false
  | Eps => true
  | Sym _ => false
  | Cat r s => nullable r && nullable s
  | Alt r s => nullable r || nullable s
  | Star _ => true
  | Rep lo hi r => Nat.eqb lo 0 || (nullable r && Nat.leb lo hi)
  end.

Definition cat (r s : regex) : regex :=
  match r with
  | Void => Void
  | Eps => s
  | _ => match s with Void => Void | _ => Cat r s end
  end.

Definition alt (r s : regex) : regex :=
  match r, s with
  | Void, _ => s
  | _, Void => r
  | _, _ => Alt r s
  end.

(** The pattern for what may follow a first character [c]. *)
Fixpoint deriv (c : codepoint) (r : regex) : regex :=
  match r with
  | Void => Void
  | Eps => Void
  | Sym p => if p c then Eps else Void
  | Cat r s =>
      alt (cat (deriv c r) s) (if nullable r then deriv c s else Void)
  | Alt r s => alt (deriv c r) (deriv c s)
  | Star r => cat (deriv c r) (Star r)
  | Rep _ O _ => Void
  | Rep lo (S hi) r => cat (deriv c r) (Rep (Nat.pred lo) hi r)
  end.

(** [re.match(p, s)] for a pattern [p] that ends in [$] (no MULTILINE):
    [$] matches at the end of the subject and also just before a newline
    that ends it. *)
Fixpoint match_dollar (r : regex) (s : str) : bool :=
  match s with
  | [] => nullable r
  | c :: s' =>
      ((c =? 10) && match s' with [] => true | _ => false end && nullable r)
      || match_dollar (deriv c r) s'
  end.

(** Pattern syntax. *)
Definition opt (r : regex) : regex := Rep 0 1 r.      (* r? *)
Definition plus (r : regex) : regex := Cat r (Star r). (* r+ *)

(** Case folding of [re.IGNORECASE] on [str] patterns, as far as ASCII
    patterns can tell: the ASCII letters, and the four letters whose case
    mappings meet them (U+0130, U+0131 with i; U+017F with s; U+212A with
    k). *)
Definition fold_case (c : codepoint) : codepoint :=
  if (65 <=? c) && (c <=? 90) then c + 32
  else if (c =? 304) || (c =? 305) then 105
  else if c =? 383 then 115
  else if c =? 8490 then 107
  else c.

(** A literal character under IGNORECASE. *)
Definition chr_i (p : codepoint) : regex :=
  Sym (fun c => fold_case c =? fold_case p).

(** A literal string under IGNORECASE. *)
Fixpoint lit_i (s : str) : regex :=
  match s with
  | [] => Eps
  | [c] => chr_i c
  | c :: s' => Cat (chr_i c) (lit_i s')
  end.

(** [[A-Z]] under IGNORECASE *)
Definition cls_alpha (c : codepoint) : bool :=
  let f := fold_case c in (97 <=? f) && (f <=? 122).

(** [[0-9]] inside a class: the ASCII digits only *)
Definition cls_09 (c : codepoint) : bool := (48 <=? c) && (c <=? 57).

(** [[A-Z0-9]] and [[A-Z0-9-]] under IGNORECASE *)
Definition cls_alnum (c : codepoint) : bool := cls_alpha c || cls_09 c.
Definition cls_alnum_dash (c : codepoint) : bool := cls_alnum c || (c =? 45).

(** [\d] on a [str] pattern: any Unicode decimal digit *)
Definition cls_d `{UnicodeData} (c : codepoint) : bool :=
  if c <? 128 then cls_09 c else uni_decimal c.

(** [\S]: anything but Unicode whitespace *)
Definition cls_S (c : codepoint) : bool := negb (isspace c).

End Re.
Import Re.

(** ** models/requests.py *)

Module Requests.

(** [class QRSize(str, Enum)] *)
Inductive QRSize := SMALL | MEDIUM | LARGE.

(** [QRSize.pixels] *)
Definition pixels (s : QRSize) : Z :=
  match s with
  | SMALL => 150
  | MEDIUM => 300
  | LARGE => 600
  end%Z.

Definition QRSize_value (s : QRSize) : str :=
  match s with
  | SMALL => lit "small"
  | MEDIUM => lit "medium"
  | LARGE => lit "large"
  end.

(** [class ErrorCorrectionLevel(str, Enum)] *)
Inductive ErrorCorrectionLevel := L | M | Q | H.

Definition ErrorCorrectionLevel_value (e : ErrorCorrectionLevel) : str :=
  match e with
  | L => lit "L"
  | M => lit "M"
  | Q => lit "Q"
  | H => lit "H"
  end.

(** [class OutputFormat(str, Enum)] *)
Inductive OutputFormat := PNG | SVG | JPEG | PDF.

Definition OutputFormat_value (f : OutputFormat) : str :=
  match f with
  | PNG => lit "png"
  | SVG => lit "svg"
  | JPEG => lit "jpeg"
  | PDF => lit "pdf"
  end.

Definition OutputFormat_eqb (a b : OutputFormat) : bool :=
  match a, b with
  | PNG, PNG | SVG, SVG | JPEG, JPEG | PDF, PDF => true
  | _, _ => false
  end.

(** [class OutputEncoding(str, Enum)] *)
Inductive OutputEncoding := BINARY | BASE64.


(** [class QRCodeRequest(BaseModel)], fields in declaration order. *)
Record QRCodeRequest := {
  data : str;
  size : QRSize;
  format : OutputFormat;
  error_correction : ErrorCorrectionLevel;
  output_format : OutputEncoding
}.

(** The capacity table of [validate_capacity] (the same literal dict in
    [models/requests.py] and in [utils/validators.py]). *)
Definition capacity_limits (e : ErrorCorrectionLevel) : nat :=
  match e with
  | L => 1663
  | M => 1273
  | Q => 927
  | H => 713
  end.

(** The message both capacity checks build:
    [f"Data too large for error correction level {ec.value}. "
     f"Maximum: {max_capacity} bytes, got: {binary_size}"] *)
Definition too_large_message (e : ErrorCorrectionLevel)
    (max_capacity binary_size : nat) : str :=
  lit "Data too large for error correction level "
  ++ ErrorCorrectionLevel_value e ++ lit ". "
  ++ lit "Maximum: " ++ str_of_nat max_capacity
  ++ lit " bytes, got: " ++ str_of_nat binary_size.

(** The URL pattern, compiled with [re.IGNORECASE]:
[[
   ^https?://
   (?:(?:[A-Z0-9](?:[A-Z0-9-]{0,61}[A-Z0-9])?\.)+[A-Z]{2,6}\.?|
   localhost|
   \d{1,3}\.\d{1,3}\.\d{1,3}\.\d{1,3})
   (?::\d+)?
   (?:/?|[/?]\S+)$
]] *)
Section UrlPattern.
Context `{UnicodeData}.
Local Open Scope N_scope.

Definition re_scheme : regex :=
  Cat (lit_i (lit "http")) (Cat (opt (chr_i 115)) (lit_i (lit "://"))).

Definition re_label : regex :=
  Cat (Sym cls_alnum)
      (opt (Cat (Rep 0 61 (Sym cls_alnum_dash)) (Sym cls_alnum))).

Definition re_domain : regex :=
  Cat (plus (Cat re_label (chr_i 46)))
      (Cat (Rep 2 6 (Sym cls_alpha)) (opt (chr_i 46))).

Definition re_octet : regex := Rep 1 3 (Sym cls_d).

Definition re_ip : regex :=
  Cat re_octet (Cat (chr_i 46) (Cat re_octet (Cat (chr_i 46)
  (Cat re_octet (Cat (chr_i 46) re_octet))))).

Definition re_host : regex :=
  Alt re_domain (Alt (lit_i (lit "localhost")) re_ip).

Definition re_port : regex := opt (Cat (chr_i 58) (plus (Sym cls_d))).

Definition re_tail : regex :=
  Alt (opt (chr_i 47))
      (Cat (Sym (fun c => (c =? 47) || (c =? 63))) (plus (Sym cls_S))).

Definition url_pattern : regex :=
  Cat re_scheme (Cat re_host (Cat re_port re_tail)).

End UrlPattern.

Definition url_prefixes : list str :=
  [lit "http://"; lit "https://"; lit "ftp://"].

(** What a pydantic validator sees of the model under construction. *)
Inductive field_value :=
| FStr (s : str)
| FSize (s : QRSize)
| FFormat (f : OutputFormat)
| FEcc (e : ErrorCorrectionLevel)
| FEncoding (e : OutputEncoding).

(** The [values] argument of a validator: the fields validated so far. *)
Definition values_dict := list (string * field_value).

Fixpoint values_get (k : string) (values : values_dict)
    : option field_value :=
  match values with
  | [] => None
  | (k', v) :: rest => if String.eqb k k' then Some v else values_get k rest
  end.

(** [@validator('data') def validate_data(cls, v)] *)
Definition validate_data `{UnicodeData} (v : str) : result str :=
  if negb (truthy v) || negb (truthy (strip v)) then
    Raise (Exn ValueError (lit "Data cannot be empty"))
  else if startswith_any v url_prefixes
          && negb (match_dollar url_pattern v) then
    Raise (Exn ValueError (lit "Invalid URL format"))
  else
    match encode_utf8 v with
    | None => Raise (Exn ValueError (lit "Data contains invalid characters"))
    | Some _ => Return v
    end.

(** [@validator('data') def validate_capacity(cls, v, values)] *)
Definition validate_capacity (v : str) (values : values_dict) : result str :=
  match values_get "error_correction" values with
  | Some fv =>
      match encode_utf8 v with
      | None => Raise (Exn ValueError (lit "Data contains invalid characters"))
      | Some encoded =>
          let binary_size := length encoded in
          match fv with
          | FEcc error_correction =>
              let max_capacity := capacity_limits error_correction in
              if Nat.ltb max_capacity binary_size then
                Raise (Exn ValueError
                  (too_large_message error_correction max_capacity binary_size))
              else Return v
          | _ => Raise (Exn OtherException (lit "KeyError"))
          end
      end
  | None => Return v
  end.

(** A [ValueError] raised by a validator leaves the model as a pydantic
    [ValidationError] (itself a [ValueError]). *)
Definition as_validation_error {A} (r : result A) : result A :=
  match r with
  | Raise (Exn ValueError msg) => Raise (Exn PydanticValidationError msg)
  | _ => r
  end.

(** [Field(..., min_length=1, max_length=2000)] *)
Definition check_data_field (v : str) : result str :=
  if Nat.ltb (length v) 1 then
    Raise (Exn PydanticValidationError
             (lit "String should have at least 1 character"))
  else if Nat.ltb 2000 (length v) then
    Raise (Exn PydanticValidationError
             (lit "String should have at most 2000 characters"))
  else Return v.

(** [QRCodeRequest(data=..., size=..., format=..., error_correction=...,
    output_format=...)].  pydantic validates the fields in declaration
    order; a validator of a field receives in [values] the fields that
    were validated before it.  [data] is declared first, so its validators
    run on an empty [values]. *)
Definition QRCodeRequest_init `{UnicodeData} (data_ : str) (size_ : QRSize)
    (format_ : OutputFormat) (error_correction_ : ErrorCorrectionLevel)
    (output_format_ : OutputEncoding) : result QRCodeRequest :=
  let values : values_dict := [] in
  v <- check_data_field data_ ;;
  v <- as_validation_error (validate_data v) ;;
  v <- as_validation_error (validate_capacity v values) ;;
  let values := values ++ [("data"%string, FStr v)] in
  let values := values ++ [("size"%string, FSize size_)] in
  let values := values ++ [("format"%string, FFormat format_)] in
  let values :=
    values ++ [("error_correction"%string, FEcc error_correction_)] in
  let values :=
    values ++ [("output_format"%string, FEncoding output_format_)] in
  Return {| data := v; size := size_; format := format_;
            error_correction := error_correction_;
            output_format := output_format_ |}.

End Requests.
Import Requests.

(** ** utils/validators.py *)

Module Validators.

(** [class ValidationResult]; its truth value is [is_valid]. *)
Record ValidationResult := {
  is_valid : bool;
  message : str
}.

(** [is_valid_url]: the same pattern as in the request model. *)
Definition is_valid_url `{UnicodeData} (url : str) : bool :=
  match_dollar Requests.url_pattern url.

(** [validate_qr_data] *)
Definition validate_qr_data `{UnicodeData} (data : str) : ValidationResult :=
  if negb (truthy data) || negb (truthy (strip data)) then
    {| is_valid := false; message := lit "Data cannot be empty" |}
  else if Nat.ltb 2000 (length data) then
    {| is_valid := false;
       message := lit "Data exceeds maximum length of 2000 characters" |}
  else if startswith_any data Requests.url_prefixes
          && negb (is_valid_url data) then
    {| is_valid := false; message := lit "Invalid URL format" |}
  else
    match encode_utf8 data with
    | None =>
        {| is_valid := false;
           message := lit "Data contains invalid characters" |}
    | Some _ => {| is_valid := true; message := lit "Valid" |}
    end.

(** [validate_capacity] *)
Definition validate_capacity (data : str)
    (error_correction : ErrorCorrectionLevel) : ValidationResult :=
  match encode_utf8 data with
  | None =>
      {| is_valid := false; message := lit "Data contains invalid characters" |}
  | Some encoded =>
      let binary_size := length encoded in
      let max_capacity := capacity_limits error_correction in
      if Nat.ltb max_capacity binary_size then
        {| is_valid := false;
           message :=
             too_large_message error_correction max_capacity binary_size |}
      else {| is_valid := true; message := lit "Valid" |}
  end.

(** [sanitize_error_message]: [re.sub(r'[<>]', '', message)], then the
    length limit. *)
Definition strip_angle (message : str) : str :=
  filter (fun c => negb ((c =? 60) || (c =? 62))%N) message.

Definition sanitize_error_message (message : str) : str :=
  let sanitized := strip_angle message in
  if Nat.ltb 200 (length sanitized) then
    firstn 197 sanitized ++ lit "..."
  else sanitized.

End Validators.

(** ** config.py *)

Module Config.

(** The fields of [Settings] the token service reads. *)
Record Settings := {
  secret_key : str;
  algorithm : str;
  access_token_expire_minutes : Z
}.

(** The defaults of [class Settings]. *)
Definition default_settings : Settings :=
  {| secret_key := lit "your-super-secret-jwt-key-change-this-in-production";
     algorithm := lit "HS256";
     access_token_expire_minutes := 30 |}.

End Config.
Import Config.

(** ** Time

    A clock reading is a number of microseconds since the epoch, the
    resolution of [datetime]; a [timedelta] is a number of microseconds. *)

Module Clock.
Local Open Scope Z_scope.

Definition instant := Z.
Definition timedelta := Z.

Definition second : Z := 1000000.

(** [timedelta(minutes=m)] *)
Definition minutes (m : Z) : timedelta := m * 60 * second.

(** The host's time zone: seconds east of UTC. *)
Record Host := { utcoffset : Z }.

Definition utc_host : Host := {| utcoffset := 0 |}.

(** [int(time.time())]: whole seconds, rounded towards zero. *)
Definition int_time (now : instant) : Z := Z.quot now second.

(** [int(d.timestamp())] for the naive [datetime] [d].  A naive value is
    read as local time, so the instant it denotes lies [utcoffset] seconds
    before the same reading taken as UTC. *)
Definition int_timestamp_naive (h : Host) (d : instant) : Z :=
  Z.quot (d - utcoffset h * second) second.

(** [timegm(d.utctimetuple())]: the whole second of a UTC reading. *)
Definition timegm_utc (d : instant) : Z := d / second.

End Clock.
Import Clock.

(** ** The token library ([from jose import jwt]) *)

Module Jose.
Local Open Scope Z_scope.

(** The claims dict of a token. *)
Record Claims := {
  c_sub : option str;
  c_exp : option Z;
  c_iat : option Z;
  c_scopes : option (list str)
}.

(** The content of a compact token: the header's algorithm, the claims,
    and the key under which its signature verifies.  Signatures are kept
    symbolic: a signature made with one key verifies under that key and
    under no other, and a token whose signature part was altered counts as
    signed with a key nobody holds. *)
Record Jws := {
  j_alg : str;
  j_claims : Claims;
  j_key : str
}.

(** The serialisation of tokens (base64url of JSON, joined by dots) is the
    library's: [compact] writes a token, [parse] reads one, and
    [malformed_reason] is the message of the error raised for a string that
    is no token. *)
Class Codec := {
  compact : Jws -> str;
  parse : str -> option Jws;
  malformed_reason : str -> str
}.

(** The contract of the serialisation: what [compact] writes, [parse]
    reads back. *)
Definition reads_back `{Codec} : Prop :=
  forall j, parse (compact j) = Some j.

(** [jwt.encode(claims, key, algorithm=alg)] *)
Definition encode `{Codec} (claims : Claims) (key alg : str) : str :=
  compact {| j_alg := alg; j_claims := claims; j_key := key |}.

(** [jwt.decode(token, key, algorithms=algs)] at a UTC clock reading:
    structure, then algorithm, then signature, then the [exp] claim, which
    the library compares with the current whole second and rejects when
    [exp < now]. *)
Definition decode `{Codec} (now : instant) (token key : str)
    (algorithms : list str) : result Claims :=
  match parse token with
  | None => Raise (Exn JWTError (malformed_reason token))
  | Some j =>
      if negb (existsb (str_eqb (j_alg j)) algorithms) then
        Raise (Exn JWTError (lit "The specified alg value is not allowed"))
      else if negb (str_eqb (j_key j) key) then
        Raise (Exn JWTError (lit "Signature verification failed."))
      else
        match c_exp (j_claims j) with
        | Some exp =>
            if exp <? timegm_utc now then
              Raise (Exn ExpiredSignatureError (lit "Signature has expired."))
            else Return (j_claims j)
        | None => Return (j_claims j)
        end
  end.

End Jose.
Import Jose.

(** ** models/auth.py *)

Module AuthModels.

(** [class TokenPayload(BaseModel)] *)
Record TokenPayload := {
  sub : str;
  exp : Z;
  iat : Z;
  tp_scopes : list str
}.

(** [class User(BaseModel)] *)
Record User := {
  id : str;
  username : str;
  email : option str;
  is_active : bool;
  scopes : list str
}.

(** [payload.dict()] *)
Definition TokenPayload_dict (p : TokenPayload) : Claims :=
  {| c_sub := Some (sub p); c_exp := Some (exp p); c_iat := Some (iat p);
     c_scopes := Some (tp_scopes p) |}.

(** [TokenPayload] built from a claims dict: [sub], [exp] and [iat] are required,
    [scopes] defaults to [["qr:generate"]]. *)
Definition TokenPayload_init (c : Claims) : result TokenPayload :=
  match c_sub c, c_exp c, c_iat c with
  | Some s, Some e, Some i =>
      Return {| sub := s; exp := e; iat := i;
                tp_scopes := match c_scopes c with
                             | Some l => l
                             | None => [lit "qr:generate"]
                             end |}
  | _, _, _ => Raise (Exn PydanticValidationError (lit "Field required"))
  end.

End AuthModels.
Import AuthModels.

(** ** services/auth.py *)

Module AuthService.
Local Open Scope Z_scope.

Section Service.
Context `{Codec}.
Variable settings : Settings.
Variable host : Host.

(** [create_access_token(user, expires_delta=None)], called at clock
    reading [now].  [if expires_delta:] is false for [None] and for a zero
    [timedelta]; [datetime.utcnow()] is naive. *)
Definition create_access_token (now : instant) (user : User)
    (expires_delta : option timedelta) : str :=
  let expire :=
    match expires_delta with
    | Some d =>
        if negb (d =? 0) then now + d
        else now + minutes (access_token_expire_minutes settings)
    | None => now + minutes (access_token_expire_minutes settings)
    end in
  let payload :=
    {| sub := id user;
       exp := int_timestamp_naive host expire;
       iat := int_time now;
       tp_scopes := scopes user |} in
  encode (TokenPayload_dict payload) (secret_key settings)
         (algorithm settings).

(** [verify_token(token)], called at clock reading [now]. *)
Definition verify_token (now : instant) (token : str)
    : result TokenPayload :=
  try_except
    (payload <- decode now token (secret_key settings)
                       [algorithm settings] ;;
     TokenPayload_init payload)
    is_JWTError
    (fun e => Raise (Exn ValueError (lit "Invalid token: " ++ str_of_exn e))).

(** [has_permission(token_payload, required_scope)] *)
Definition has_permission (token_payload : TokenPayload)
    (required_scope : str) : bool :=
  existsb (str_eqb required_scope) (tp_scopes token_payload).

End Service.
End AuthService.

(** ** The HTTP exchange *)

Module Http.

Record RequestState := {
  user_id : option str;
  token_exp : option Z
}.

Record Request := {
  method : str;
  path : str;
  headers : list (str * str);
  state : RequestState
}.

(** What a handler sends back: the body is raw bytes or a JSON object of
    strings. *)
Inductive content :=
| Bytes (b : bytes)
| Json (fields : list (str * str)).

Record Response := {
  status_code : Z;
  media_type : str;
  resp_headers : list (str * str);
  body : content
}.

(** ASCII lower case: header names compare without case. *)
Definition lower (s : str) : str :=
  map (fun c => if (65 <=? c) && (c <=? 90) then c + 32 else c)%N s.

(** [request.headers.get(name)] *)
Fixpoint headers_get (name : str) (hs : list (str * str)) : option str :=
  match hs with
  | [] => None
  | (k, v) :: rest =>
      if str_eqb (lower k) (lower name) then Some v else headers_get name rest
  end.

(** [d.get(key)] on a dict of strings. *)
Fixpoint dict_get (key : str) (d : list (str * str)) : option str :=
  match d with
  | [] => None
  | (k, v) :: rest => if str_eqb k key then Some v else dict_get key rest
  end.

(** The status an exchange ends with: that of the response, or the
    [status_code] of the [HTTPException] raised instead, which the
    framework turns into a response of that status; any other exception is
    a 500. *)
Definition status_of (r : result Response) : Z :=
  match r with
  | Return resp => status_code resp
  | Raise (HTTPException code _ _) => code
  | Raise (Exn _ _) => 500
  end.

(** The machine-readable error category of an error: the ["error"] entry
    of the [detail] dict, when there is one. *)
Definition error_category (r : result Response) : option str :=
  match r with
  | Raise (HTTPException _ (DetailDict d) _) => dict_get (lit "error") d
  | _ => None
  end.

(** The human-readable part of an error. *)
Definition error_message (r : result Response) : option str :=
  match r with
  | Raise (HTTPException _ (DetailDict d) _) => dict_get (lit "message") d
  | Raise (HTTPException _ (DetailStr s) _) => Some s
  | _ => None
  end.

End Http.
Import Http.

(** ** middleware/auth.py *)

Module Middleware.
Local Open Scope Z_scope.

Definition public_paths : list str :=
  [lit "/v1/health"; lit "/docs"; lit "/redoc"; lit "/openapi.json"].

(** The guard of the first [if]: the paths that skip authentication. *)
Definition skips_authentication (p : str) : bool :=
  existsb (str_eqb p) public_paths || startswith p (lit "/v1/auth/").

Definition unauthorized (msg : string) : exn :=
  HTTPException 401 (DetailStr (lit msg))
                [(lit "WWW-Authenticate", lit "Bearer")].

Section Bearer.
Context `{Codec}.
Variable settings : Settings.

(** The body of the outer [try], up to the call of [call_next]: the
    request with its state filled in, or the exception raised. *)
Definition authenticate (now : instant) (request : Request)
    : result Request :=
  match headers_get (lit "Authorization") request.(headers) with
  | None => Raise (unauthorized "Missing authentication token")
  | Some authorization =>
      if negb (truthy authorization) then
        Raise (unauthorized "Missing authentication token")
      else if negb (startswith authorization (lit "Bearer ")) then
        Raise (unauthorized
          "Invalid authentication token format. Expected: 'Bearer <token>'")
      else
        match nth_error (split_on 32%N authorization) 1 with
        | None => Raise (Exn OtherException (lit "list index out of range"))
        | Some token =>
            try_except
              (payload <- decode now token (secret_key settings)
                                 [algorithm settings] ;;
               let st := {| user_id := c_sub payload;
                            token_exp := c_exp payload |} in
               match token_exp st with
               | Some e =>
                   (* [token_exp and token_exp < time.time()] *)
                   if negb (e =? 0) && (e * second <? now) then
                     Raise (unauthorized "Token has expired")
                   else Return {| method := request.(method);
                                  path := request.(path);
                                  headers := request.(headers);
                                  state := st |}
               | None => Return {| method := request.(method);
                                   path := request.(path);
                                   headers := request.(headers);
                                   state := st |}
               end)
              is_JWTError
              (fun _ => Raise (unauthorized "Invalid authentication token"))
        end
  end.

(** [auth_middleware(request, call_next)] at clock reading [now]. *)
Definition auth_middleware (now : instant) (request : Request)
    (call_next : Request -> result Response) : result Response :=
  if skips_authentication request.(path) then call_next request
  else
    try_except
      (request' <- authenticate now request ;; call_next request')
      (fun e => negb (is_HTTPException e))
      (fun _ => Raise (HTTPException 500
                  (DetailStr (lit "Authentication service error")) [])).

End Bearer.
End Middleware.

(** ** services/qr_generator.py *)

Module Generator.
Import Validators.
Local Open Scope Z_scope.

(** [qr.get_matrix()]: rows of modules, [true] for a dark one. *)
Definition matrix := list (list bool).

(** One drawing call on a reportlab canvas.  Coordinates are kept doubled,
    so that the halves of the page size stay integers. *)
Inductive canvas_op :=
| SetFont (name : str) (font_size : Z)
| DrawString (x2 y2 : Z) (text : str)
| DrawImage (png : bytes) (x2 y2 : Z) (width height : Z)
            (preserveAspectRatio : bool).

(** The libraries the service calls ([qrcode], [PIL], [reportlab],
    [base64]) and the formatting of floats.  Each call returns or raises;
    what it returns is the library's business. *)
Class Libs := {
  image : Type;
  (** [QRCode(version=None, error_correction=.., box_size=10, border=4)],
      [add_data(data)], [make(fit=True)], then [get_matrix()] *)
  qr_get_matrix : str -> ErrorCorrectionLevel -> result matrix;
  (** the same, then [make_image(fill_color="black", back_color="white")] *)
  qr_make_image : str -> ErrorCorrectionLevel -> result image;
  (** [img.resize((w, h), Image.Resampling.LANCZOS)] *)
  image_resize : image -> Z -> Z -> result image;
  (** [img.mode == 'RGBA'] *)
  image_is_rgba : image -> bool;
  (** [Image.new('RGB', img.size, 'white')] then [paste(img, mask=..)];
      the flag says whether the alpha band is the mask *)
  image_on_white : image -> bool -> result image;
  (** [img.save(buffer, format='PNG')] and
      [img.save(buffer, format='JPEG', quality=q)] *)
  image_save_png : image -> result bytes;
  image_save_jpeg : image -> Z -> result bytes;
  (** [ImageReader(io.BytesIO(png_data))] *)
  pdf_image_reader : bytes -> result unit;
  (** the reading of the image that [drawImage] does *)
  pdf_draw_image : bytes -> result unit;
  (** [pdf_canvas.save()] then [pdf_buffer.getvalue()] for a one-page
      canvas of the [letter] size *)
  pdf_save : list canvas_op -> result bytes;
  (** [base64.b64encode(b).decode('utf-8')] *)
  b64encode : bytes -> str;
  (** [str(x)] for a float number of milliseconds, given in microseconds *)
  str_of_ms : Z -> str
}.

(** [reportlab.lib.pagesizes.letter] *)
Definition page_width : Z := 612.
Definition page_height : Z := 792.

(** [list(enumerate(l))] *)
Definition enumerate {A} (l : list A) : list (nat * A) :=
  combine (seq 0 (length l)) l.

(** The constants of [_generate_svg_qr]. *)
Definition box_size : nat := 10.
Definition border : nat := 4.

Definition svg_header (svg_size : nat) : list str :=
  [ lit "<?xml version=" ++ dq ++ lit "1.0" ++ dq ++ lit " encoding="
      ++ dq ++ lit "UTF-8" ++ dq ++ lit "?>";
    lit "<svg width=" ++ dq ++ str_of_nat svg_size ++ dq
      ++ lit " height=" ++ dq ++ str_of_nat svg_size ++ dq
      ++ lit " xmlns=" ++ dq ++ lit "http://www.w3.org/2000/svg" ++ dq
      ++ lit ">";
    lit "<rect width=" ++ dq ++ lit "100%" ++ dq ++ lit " height=" ++ dq
      ++ lit "100%" ++ dq ++ lit " fill=" ++ dq ++ lit "white" ++ dq
      ++ lit "/>" ].

(** [f'<rect x="{x}" y="{y}" width="{box_size}" height="{box_size}"
    fill="black"/>'] *)
Definition svg_module (x y : nat) : str :=
  lit "<rect x=" ++ dq ++ str_of_nat x ++ dq
  ++ lit " y=" ++ dq ++ str_of_nat y ++ dq
  ++ lit " width=" ++ dq ++ str_of_nat box_size ++ dq
  ++ lit " height=" ++ dq ++ str_of_nat box_size ++ dq
  ++ lit " fill=" ++ dq ++ lit "black" ++ dq ++ lit "/>".

(** The two nested [for] loops over the matrix, appending to
    [svg_lines]. *)
Definition svg_append_row (svg_lines : list str)
    (row : nat) (matrix_row : list bool) : list str :=
  fold_left
    (fun svg_lines '(col, module) =>
       if module : bool then
         let x := ((col + border) * box_size)%nat in
         let y := ((row + border) * box_size)%nat in
         svg_lines ++ [svg_module x y]
       else svg_lines)
    (enumerate matrix_row) svg_lines.

Definition svg_lines_of (qr_matrix : matrix) : list str :=
  let matrix_size := length qr_matrix in
  let svg_size := ((matrix_size + 2 * border) * box_size)%nat in
  let svg_lines := svg_header svg_size in
  let svg_lines :=
    fold_left
      (fun svg_lines '(row, matrix_row) =>
         svg_append_row svg_lines row matrix_row)
      (enumerate qr_matrix) svg_lines in
  svg_lines ++ [lit "</svg>"].

(** [s.encode('utf-8')] as a call that may raise. *)
Definition encode_or_raise (s : str) : result bytes :=
  match encode_utf8 s with
  | Some b => Return b
  | None => Raise (Exn UnicodeEncodeError
                     (lit "'utf-8' codec can't encode character"))
  end.

Section Service.
Context `{UnicodeData} `{Libs}.

(** [_generate_raster_qr] *)
Definition _generate_raster_qr (request : QRCodeRequest) : result bytes :=
  qr_img <- qr_make_image request.(data) request.(error_correction) ;;
  let target_size := pixels request.(size) in
  qr_img <- image_resize qr_img target_size target_size ;;
  if OutputFormat_eqb request.(format) JPEG then
    rgb_img <- image_on_white qr_img (image_is_rgba qr_img) ;;
    image_save_jpeg rgb_img 85
  else image_save_png qr_img.

(** [_generate_svg_qr] *)
Definition _generate_svg_qr (request : QRCodeRequest) : result bytes :=
  qr_matrix <- qr_get_matrix request.(data) request.(error_correction) ;;
  encode_or_raise (join (lit (String "010" EmptyString))
                        (svg_lines_of qr_matrix)).

(** The [try] block of [_generate_pdf_qr]: its outcome, and the value
    of the local [target_size] when the block was left ([None] while the
    assignment has not run). *)
Definition pdf_try (request : QRCodeRequest) : option Z * result bytes :=
  match QRCodeRequest_init request.(data) request.(size) PNG
                           request.(error_correction) BINARY with
  | Raise e => (None, Raise e)
  | Return png_request =>
      match _generate_raster_qr png_request with
      | Raise e => (None, Raise e)
      | Return png_data =>
          let target_size := pixels request.(size) in
          let x2 := page_width - target_size in
          let y2 := page_height - target_size in
          (Some target_size,
           _ <- pdf_image_reader png_data ;;
           _ <- pdf_draw_image png_data ;;
           pdf_save [DrawImage png_data x2 y2 target_size target_size true])
      end
  end.

(** [f"Data: {request.data[:60]}{'...' if len(request.data) > 60 else ''}"] *)
Definition data_preview (d : str) : str :=
  lit "Data: " ++ firstn 60 d
  ++ (if Nat.ltb 60 (length d) then lit "..." else []).

(** The [except Exception] block of [_generate_pdf_qr].  It reads the
    local [target_size]; reading an unassigned local raises
    [UnboundLocalError].  An enum member is formatted as its value. *)
Definition pdf_fallback (request : QRCodeRequest) (target_size : option Z)
    : result bytes :=
  let page :=
    [ SetFont (lit "Helvetica-Bold") 16;
      DrawString (page_width - 200) (page_height + 100)
                 (lit "QR Code Generator API");
      SetFont (lit "Helvetica") 12;
      DrawString (page_width - 300) page_height
                 (data_preview request.(data)) ] in
  match target_size with
  | None =>
      Raise (Exn UnboundLocalError
        (lit "cannot access local variable 'target_size' where it is not associated with a value"))
  | Some target_size =>
      pdf_save
        (page ++
         [ DrawString (page_width - 300) (page_height - 60)
             (lit "Size: " ++ QRSize_value request.(size) ++ lit " ("
              ++ str_of_Z target_size ++ lit "x" ++ str_of_Z target_size
              ++ lit "px)");
           DrawString (page_width - 300) (page_height - 100)
             (lit "Error Correction: "
              ++ ErrorCorrectionLevel_value request.(error_correction));
           SetFont (lit "Helvetica-Oblique") 10;
           DrawString (page_width - 300) (page_height - 160)
             (lit "Note: QR code image generation failed - showing text representation") ])
  end.

(** [_generate_pdf_qr] *)
Definition _generate_pdf_qr (request : QRCodeRequest) : result bytes :=
  let '(target_size, outcome) := pdf_try request in
  match outcome with
  | Return pdf => Return pdf
  | Raise _ => pdf_fallback request target_size
  end.

(** [generate_qr_code(request)]; [start_time] and [end_time] are the two
    readings of [time.time()].  The generation time is kept in
    microseconds. *)
Definition generate_qr_code (start_time end_time : instant)
    (request : QRCodeRequest) : result (bytes * Z) :=
  let data_validation := validate_qr_data request.(data) in
  if negb (is_valid data_validation) then
    Raise (Exn ValueError (message data_validation))
  else
    let capacity_validation :=
      validate_capacity request.(data) request.(error_correction) in
    if negb (is_valid capacity_validation) then
      Raise (Exn ValueError (message capacity_validation))
    else
      try_except
        (image_data <-
           match request.(format) with
           | SVG => _generate_svg_qr request
           | PDF => _generate_pdf_qr request
           | _ => _generate_raster_qr request
           end ;;
         let generation_time := end_time - start_time in
         Return (image_data, generation_time))
        (fun _ => true)
        (fun e => Raise (Exn ValueError
                    (lit "Failed to generate QR code: " ++ str_of_exn e))).

End Service.
End Generator.

(** ** api/endpoints/qr.py *)

Module QrEndpoint.
Import Generator.
Local Open Scope Z_scope.

Section Endpoint.
Context `{UnicodeData} `{Libs}.

Definition qr_headers (generation_time : Z) (request : QRCodeRequest)
    (marker : string) : list (str * str) :=
  [ (lit "X-Generation-Time-Ms", str_of_ms generation_time);
    (lit "X-QR-Size", QRSize_value request.(size));
    (lit "X-Error-Correction",
       ErrorCorrectionLevel_value request.(error_correction));
    (lit "X-Output-Format", lit marker) ].

Definition error_detail (category : string) (msg : str) : detail :=
  DetailDict [(lit "error", lit category); (lit "message", msg)].

(** The body of the [try] of the route. *)
Definition respond (start_time end_time : instant)
    (request : QRCodeRequest) : result Response :=
  generated <- generate_qr_code start_time end_time request ;;
  let '(image_data, generation_time_ms) := generated in
  match request.(output_format) with
  | BASE64 =>
      let base64_data := b64encode image_data in
      Return {| status_code := 200;
                media_type := lit "application/json";
                resp_headers :=
                  qr_headers generation_time_ms request "base64";
                body := Json
                  [ (lit "data", base64_data);
                    (lit "format", OutputFormat_value request.(format));
                    (lit "encoding", lit "base64");
                    (lit "size", QRSize_value request.(size));
                    (lit "error_correction",
                       ErrorCorrectionLevel_value
                         request.(error_correction)) ] |}
  | BINARY =>
      let media_type :=
        match request.(format) with
        | SVG => lit "image/svg+xml"
        | PDF => lit "application/pdf"
        | f => lit "image/" ++ OutputFormat_value f
        end in
      Return {| status_code := 200;
                media_type := media_type;
                resp_headers :=
                  qr_headers generation_time_ms request "binary";
                body := Bytes image_data |}
  end.

(** [POST /qr-code]: the three [except] clauses in their order. *)
Definition generate_qr_code (start_time end_time : instant)
    (request : QRCodeRequest) : result Response :=
  match respond start_time end_time request with
  | Return response => Return response
  | Raise e =>
      if is_ValueError e then
        Raise (HTTPException 400
                 (error_detail "validation_error" (str_of_exn e)) [])
      else if is_RuntimeError e then
        Raise (HTTPException 422
                 (error_detail "generation_error" (str_of_exn e)) [])
      else
        Raise (HTTPException 500
                 (error_detail "internal_error"
                    (lit "An unexpected error occurred while processing your request"))
                 [])
  end.

End Endpoint.
End QrEndpoint.

(** ** main.py *)

Module App.
Import Middleware.
Local Open Scope Z_scope.

(** [health_check] *)
Definition health_check : Response :=
  {| status_code := 200;
     media_type := lit "application/json";
     resp_headers := [];
     body := Json [ (lit "status", lit "healthy");
                    (lit "timestamp", lit "2025-11-14T10:30:00Z");
                    (lit "version", lit "1.0.0") ] |}.

Definition plain (code : Z) (msg : string) : Response :=
  {| status_code := code;
     media_type := lit "application/json";
     resp_headers := [];
     body := Json [(lit "detail", lit msg)] |}.

Section Application.
Context `{Codec}.
Variable settings : Settings.
(** The other routes (the QR and token endpoints with their request
    parsing), already turned into responses by the framework. *)
Variable other_routes : Request -> Response.

(** The router, for the route declared in [main.py]: [GET /v1/health]
    answers, any other method on that path is refused with 405. *)
Definition router (request : Request) : result Response :=
  if str_eqb request.(path) (lit "/v1/health") then
    if str_eqb request.(method) (lit "GET") then Return health_check
    else Return (plain 405 "Method Not Allowed")
  else Return (other_routes request).

(** [LoggingMiddleware.dispatch]: logs, and stamps the processing time
    on the response. *)
Definition logging_middleware (process_time : str) (request : Request)
    (call_next : Request -> result Response) : result Response :=
  response <- call_next request ;;
  Return {| status_code := status_code response;
            media_type := media_type response;
            resp_headers :=
              resp_headers response
              ++ [(lit "X-Process-Time-Ms", process_time)];
            body := body response |}.

(** The application: the authentication middleware was added last and
    so runs first, then logging, then the routes (CORS adds headers only
    and is left out). *)
Definition app (now : instant) (process_time : str) (request : Request)
    : result Response :=
  auth_middleware settings now request
    (fun request => logging_middleware process_time request router).

End Application.
End App.

(** ** utils/validators.py: the check of the generation parameters *)

Module Parameters.
Import Validators.

(** [x in l] for a list of strings. *)
Definition str_in (x : str) (l : list str) : bool :=
  existsb (str_eqb x) l.

Definition valid_sizes : list str :=
  [lit "small"; lit "medium"; lit "large"].

Definition valid_formats : list str :=
  [lit "png"; lit "svg"; lit "jpeg"; lit "pdf"].

Definition valid_error_levels : list str :=
  [lit "L"; lit "M"; lit "Q"; lit "H"].

(** [validate_generation_parameters(size, format, error_correction)] *)
Definition validate_generation_parameters
    (size format error_correction : str) : ValidationResult :=
  if negb (str_in size valid_sizes) then
    {| is_valid := false;
       message := lit "Invalid size '" ++ size ++ lit "'. Valid sizes: "
                  ++ join (lit ", ") valid_sizes |}
  else if negb (str_in format valid_formats) then
    {| is_valid := false;
       message := lit "Invalid format '" ++ format
                  ++ lit "'. Valid formats: "
                  ++ join (lit ", ") valid_formats |}
  else if negb (str_in error_correction valid_error_levels) then
    {| is_valid := false;
       message := lit "Invalid error correction '" ++ error_correction
                  ++ lit "'. Valid levels: "
                  ++ join (lit ", ") valid_error_levels |}
  else {| is_valid := true; message := lit "Valid" |}.

End Parameters.

(** ** api/endpoints/auth.py *)

Module TokenEndpoint.
Local Open Scope Z_scope.

(** The fields of [Settings] that [get_valid_credentials] reads. *)
Record Credentials := {
  auth_username : str;
  auth_password : str
}.

(** Their defaults in [class Settings]. *)
Definition default_credentials : Credentials :=
  {| auth_username := lit "admin";
     auth_password := lit "secure_password_123" |}.

(** [get_valid_credentials()]: a dict with one entry.  [settings] has both
    attributes, so neither default of [getattr] nor the [except] is used. *)
Definition get_valid_credentials (c : Credentials) : list (str * str) :=
  let username := auth_username c in
  let password := auth_password c in
  [(username, password)].

(** [class TokenRequest(BaseModel)] *)
Record TokenRequest := {
  username : str;
  password : str
}.

(** [class TokenResponse(BaseModel)] *)
Record TokenResponse := {
  access_token : str;
  token_type : str;
  expires_in : Z
}.

Definition invalid_credentials : exn :=
  HTTPException 401 (DetailStr (lit "Invalid username or password")) [].

Section Endpoint.
Context `{Codec}.
Variable settings : Settings.
Variable credentials : Credentials.
(** The exception that [jwt.encode] raises for a key and an algorithm it
    cannot sign with (an algorithm it does not know, a key that is not of
    the algorithm's kind); [None] when it signs. *)
Variable sign_failure : str -> str -> option exn.

(** [POST /auth/token]; [now1] and [now2] are the two readings of
    [datetime.utcnow()].  [jwt.encode] turns the [datetime] values of
    [exp] and [iat] into whole seconds with [timegm(d.utctimetuple())]. *)
Definition create_access_token (now1 now2 : instant)
    (request : TokenRequest) : result TokenResponse :=
  let VALID_CREDENTIALS := get_valid_credentials credentials in
  match dict_get request.(username) VALID_CREDENTIALS with
  | None => Raise invalid_credentials
  | Some stored =>
      if negb (str_eqb stored request.(password)) then
        Raise invalid_credentials
      else
        try_except
          (let expire :=
             now1 + minutes (access_token_expire_minutes settings) in
           let payload :=
             {| c_sub := Some request.(username);
                c_exp := Some (timegm_utc expire);
                c_iat := Some (timegm_utc now2);
                c_scopes := Some [lit "qr:generate"] |} in
           access_token <-
             match sign_failure (secret_key settings)
                                (algorithm settings) with
             | Some e => Raise e
             | None =>
                 Return (encode payload (secret_key settings)
                                (algorithm settings))
             end ;;
           Return {| access_token := access_token;
                     token_type := lit "bearer";
                     expires_in :=
                       access_token_expire_minutes settings * 60 |})
          (fun _ => true)
          (fun _ => Raise (HTTPException 500
                      (DetailStr (lit "Failed to generate access token"))
                      []))
  end.

End Endpoint.
End TokenEndpoint.


(* ===================================================================== *)
(** * Part II. The vocabulary of the statements *)
(* ===================================================================== *)

Unset Implicit Arguments.

(** The words the theorems are stated in: verdicts, error values, and
    closed forms of what loops and branches compute. *)

Module Vocabulary.
Import Validators Generator.

(** *** Text *)

(** A string of ASCII characters. *)
Definition is_ascii (s : str) : bool := forallb (fun c => c <? 128)%N s.

Definition newline : str := lit (String "010" EmptyString).


(** *** Verdicts of the validators *)

(** The verdict "capacity exceeded": invalid, with the message that
    [validate_capacity] builds from the limit and the actual size. *)
Definition capacity_exceeded (e : ErrorCorrectionLevel) (size : nat)
    : ValidationResult :=
  {| is_valid := false;
     message := too_large_message e (capacity_limits e) size |}.

(** The verdict [ValidationResult(True, "Valid")], and a refusal with a
    message. *)
Definition valid : ValidationResult :=
  {| is_valid := true; message := lit "Valid" |}.

Definition invalid (msg : string) : ValidationResult :=
  {| is_valid := false; message := lit msg |}.

(** [not data or not data.strip()] *)
Definition blank (data : str) : bool :=
  negb (truthy data) || negb (truthy (strip data)).


(** The characters that survive [re.sub(r'[<>]', '', message)]. *)
Definition not_angle (c : codepoint) : bool :=
  negb ((c =? 60) || (c =? 62))%N.

(** *** The SVG document *)

(** The module in row [row] and column [col]; [false] outside. *)
Definition module_at (m : matrix) (row col : nat) : bool :=
  nth col (nth row m []) false.

(** The rectangle the loops draw for the module at [row], [col]. *)
Definition svg_cell (row col : nat) : str :=
  svg_module ((col + border) * box_size) ((row + border) * box_size).

(** The lines the inner loop appends for a row, from column [col] on, and
    those the outer loop appends for the rows from [row] on. *)
Fixpoint row_lines (row col : nat) (r : list bool) : list str :=
  match r with
  | [] => []
  | b :: r' =>
      (if b then [svg_cell row col] else []) ++ row_lines row (S col) r'
  end.

Fixpoint matrix_lines (row : nat) (m : matrix) : list str :=
  match m with
  | [] => []
  | r :: m' => row_lines row 0 r ++ matrix_lines (S row) m'
  end.


(** *** Tokens *)

Definition expired_error : exn :=
  Exn ValueError (lit "Invalid token: Signature has expired.").

(** The TTL that [create_access_token] applies: the one passed, unless
    it is absent or zero. *)
Definition effective_ttl (settings : Settings)
    (expires_delta : option timedelta) : timedelta :=
  match expires_delta with
  | Some d => if (d =? 0)%Z
              then minutes (access_token_expire_minutes settings)
              else d
  | None => minutes (access_token_expire_minutes settings)
  end.

(** The payload of a token issued to [user] at [now] with the TTL
    [ttl]. *)
Definition issued (user : User) (host : Host) (now : instant)
    (ttl : timedelta) : TokenPayload :=
  {| sub := id user;
     exp := int_timestamp_naive host (now + ttl)%Z;
     iat := int_time now;
     tp_scopes := scopes user |}.

(** *** Rendering *)

Definition unbound_target_size : exn :=
  Exn UnboundLocalError
    (lit "cannot access local variable 'target_size' where it is not associated with a value").

Section WithLibraries.
Context `{UnicodeData} `{Libs}.

(** The dispatch on the format in [generate_qr_code]. *)
Definition render (request : QRCodeRequest) : result bytes :=
  match request.(format) with
  | SVG => _generate_svg_qr request
  | PDF => _generate_pdf_qr request
  | _ => _generate_raster_qr request
  end.

Definition png_copy (request : QRCodeRequest) : result QRCodeRequest :=
  QRCodeRequest_init request.(data) request.(size) PNG
                     request.(error_correction) BINARY.

End WithLibraries.

End Vocabulary.
Import Vocabulary.

(** ** Models of the library interfaces, and sample inputs

    The interfaces [Codec] and [Libs] are inhabited: a length-prefixed
    serialisation of tokens meets the contract of [Codec], and constant
    functions give library behaviours in which every call succeeds, or in
    which a chosen call raises. *)

Module Samples.
Import Validators Generator AuthService Middleware App.
Local Open Scope N_scope.

Definition put_str (s : str) : str := N.of_nat (length s) :: s.

Definition get_str (l : str) : option (str * str) :=
  match l with
  | [] => None
  | n :: rest =>
      let k := N.to_nat n in
      if Nat.leb k (length rest) then Some (firstn k rest, skipn k rest)
      else None
  end.

Definition put_Z (z : Z) : str :=
  [if (z <? 0)%Z then 1 else 0; Z.abs_N z].

Definition get_Z (l : str) : option (Z * str) :=
  match l with
  | s :: a :: rest =>
      Some (if s =? 1 then (- Z.of_N a)%Z else Z.of_N a, rest)
  | _ => None
  end.

Definition put_opt {A} (put : A -> str) (o : option A) : str :=
  match o with
  | None => [0]
  | Some a => 1 :: put a
  end.

Definition get_opt {A} (get : str -> option (A * str)) (l : str)
    : option (option A * str) :=
  match l with
  | [] => None
  | tag :: rest =>
      if tag =? 0 then Some (None, rest)
      else match get rest with
           | Some (a, rest') => Some (Some a, rest')
           | None => None
           end
  end.

Definition put_strs (l : list str) : str :=
  N.of_nat (length l) :: flat_map put_str l.

Fixpoint get_n_strs (k : nat) (l : str) : option (list str * str) :=
  match k with
  | O => Some ([], l)
  | S k' =>
      match get_str l with
      | Some (s, rest) =>
          match get_n_strs k' rest with
          | Some (ss, rest') => Some (s :: ss, rest')
          | None => None
          end
      | None => None
      end
  end.

Definition get_strs (l : str) : option (list str * str) :=
  match l with
  | [] => None
  | n :: rest => get_n_strs (N.to_nat n) rest
  end.

Definition toy_compact (j : Jws) : str :=
  put_str (j_alg j) ++ put_str (j_key j)
  ++ put_opt put_str (c_sub (j_claims j))
  ++ put_opt put_Z (c_exp (j_claims j))
  ++ put_opt put_Z (c_iat (j_claims j))
  ++ put_opt put_strs (c_scopes (j_claims j)).

Definition toy_parse (l : str) : option Jws :=
  match get_str l with
  | Some (alg, l1) =>
  match get_str l1 with
  | Some (key, l2) =>
  match get_opt get_str l2 with
  | Some (sub_, l3) =>
  match get_opt get_Z l3 with
  | Some (exp_, l4) =>
  match get_opt get_Z l4 with
  | Some (iat_, l5) =>
  match get_opt get_strs l5 with
  | Some (scopes_, []) =>
      Some {| j_alg := alg;
              j_claims := {| c_sub := sub_; c_exp := exp_; c_iat := iat_;
                             c_scopes := scopes_ |};
              j_key := key |}
  | _ => None
  end | None => None end | None => None end | None => None end
  | None => None end | None => None end.

Definition toy_codec : Codec :=
  {| compact := toy_compact;
     parse := toy_parse;
     malformed_reason := fun _ => lit "Not enough segments" |}.

(** A two-by-two matrix standing for an encoded symbol. *)
Definition sample_matrix : matrix := [[true; false]; [false; true]].

(** Libraries in which every call succeeds. *)
Definition working_libs : Libs :=
  {| image := unit;
     qr_get_matrix := fun _ _ => Return sample_matrix;
     qr_make_image := fun _ _ => Return tt;
     image_resize := fun i _ _ => Return i;
     image_is_rgba := fun _ => false;
     image_on_white := fun i _ => Return i;
     image_save_png := fun _ => Return (lit "PNG");
     image_save_jpeg := fun _ _ => Return (lit "JFIF");
     pdf_image_reader := fun _ => Return tt;
     pdf_draw_image := fun _ => Return tt;
     pdf_save := fun _ => Return (lit "%PDF-1.3");
     b64encode := fun b => b;
     str_of_ms := str_of_Z |}.

(** Libraries in which building the raster image raises [e]. *)
Definition raster_raises (e : exn) : Libs :=
  {| image := unit;
     qr_get_matrix := fun _ _ => Raise e;
     qr_make_image := fun _ _ => Raise e;
     image_resize := fun i _ _ => Return i;
     image_is_rgba := fun _ => false;
     image_on_white := fun i _ => Return i;
     image_save_png := fun _ => Return (lit "PNG");
     image_save_jpeg := fun _ _ => Return (lit "JFIF");
     pdf_image_reader := fun _ => Return tt;
     pdf_draw_image := fun _ => Return tt;
     pdf_save := fun _ => Return (lit "%PDF-1.3");
     b64encode := fun b => b;
     str_of_ms := str_of_Z |}.

(** Libraries in which drawing the image on the page raises [e]. *)
Definition embedding_raises (e : exn) : Libs :=
  {| image := unit;
     qr_get_matrix := fun _ _ => Return sample_matrix;
     qr_make_image := fun _ _ => Return tt;
     image_resize := fun i _ _ => Return i;
     image_is_rgba := fun _ => false;
     image_on_white := fun i _ => Return i;
     image_save_png := fun _ => Return (lit "PNG");
     image_save_jpeg := fun _ _ => Return (lit "JFIF");
     pdf_image_reader := fun _ => Return tt;
     pdf_draw_image := fun _ => Raise e;
     pdf_save := fun _ => Return (lit "%PDF-1.3");
     b64encode := fun b => b;
     str_of_ms := str_of_Z |}.

(** *** Sample inputs *)

(** A letter, an accented letter, the euro sign and an emoji, and their
    UTF-8 encoding. *)
Definition mixed_widths : str := [65; 233; 8364; 128640]%N.

Definition mixed_widths_utf8 : bytes :=
  [65; 195; 169; 226; 130; 172; 240; 159; 154; 128]%N.

(** 200 times the letter a, then one '<'. *)
Definition long_but_clean : str := repeat 97%N 200 ++ [60%N].


(** 714 times the letter x: one byte more than level H holds. *)
Definition oversized : str := repeat 120%N 714.

Definition hello (f : OutputFormat) : QRCodeRequest :=
  {| data := lit "Hello, World!"; size := MEDIUM; format := f;
     error_correction := M; output_format := BINARY |}.

Definition out_of_memory : exn := Exn RuntimeError (lit "out of memory").

Definition alice : User :=
  {| id := lit "alice"; username := lit "alice"; email := None;
     is_active := true; scopes := [lit "qr:generate"] |}.

(** 14 November 2023, 22:13:20.2 UTC. *)
Definition t0 : instant := 1700000000200000%Z.

Definition no_state : RequestState :=
  {| user_id := None; token_exp := None |}.

(** [POST /v1/qr-code] without any header. *)
Definition anonymous_post : Request :=
  {| method := lit "POST"; path := lit "/v1/qr-code"; headers := [];
     state := no_state |}.

(** [POST /v1/qr-code] with [Authorization: Bearer <token>]. *)
Definition bearer (token : str) : Request :=
  {| method := lit "POST"; path := lit "/v1/qr-code";
     headers := [(lit "Authorization", lit "Bearer " ++ token)];
     state := no_state |}.

(** The routes behind the middleware, with nothing but [/v1/health]
    mounted. *)
Definition downstream (request : Request) : result Response :=
  logging_middleware (lit "0.1") request
    (router (fun _ => plain 404 "Not Found")).



Definition garbage_token : str := lit "invalid-token".


End Samples.
Import Samples.

(** ** Further vocabulary and samples *)

Module Terms.
Import Validators Generator AuthService Middleware App.

(** Every character class of a pattern lies within the class [P]. *)
Fixpoint syms_within (P : codepoint -> bool) (r : regex) : Prop :=
  match r with
  | Void | Eps => True
  | Sym p => forall c, p c = true -> P c = true
  | Cat r s | Alt r s => syms_within P r /\ syms_within P s
  | Star r | Rep _ _ r => syms_within P r
  end.

(** An interpreter's table in which no decimal digit is whitespace, as
    in Unicode. *)
Definition digits_are_not_spaces `{UnicodeData} : Prop :=
  forall c, uni_decimal c = true -> isspace c = false.


(** What authentication leaves in [request.state], or the error. *)
Definition outcome_state (r : result Request) : result RequestState :=
  match r with
  | Return request => Return request.(state)
  | Raise e => Raise e
  end.

(** The request as the middleware hands it on once a token with the
    claims [claims] was accepted. *)
Definition authenticated (request : Request) (claims : Claims) : Request :=
  {| method := request.(method);
     path := request.(path);
     headers := request.(headers);
     state := {| user_id := c_sub claims; token_exp := c_exp claims |} |}.

(** The details of the four refusals of the middleware. *)
Definition refusals : list exn :=
  [ unauthorized "Missing authentication token";
    unauthorized
      "Invalid authentication token format. Expected: 'Bearer <token>'";
    unauthorized "Invalid authentication token";
    unauthorized "Token has expired" ].

Definition authentication_service_error : exn :=
  HTTPException 500 (DetailStr (lit "Authentication service error")) [].

(** The error of the route for a refused request. *)
Definition validation_error (msg : str) : exn :=
  HTTPException 400 (QrEndpoint.error_detail "validation_error" msg) [].

(** *** Samples *)

Definition spaced_url : str := lit "http://example.com/a b".

(** [POST /v1/qr-code] with the given [Authorization] header. *)
Definition with_authorization (value : str) : Request :=
  {| method := lit "POST"; path := lit "/v1/qr-code";
     headers := [(lit "Authorization", value)];
     state := no_state |}.

(** A token issued to [alice] at [t0] with the default lifetime. *)
Definition fresh_token : str :=
  @AuthService.create_access_token toy_codec default_settings utc_host
    t0 alice None.

(** A token library that signs with every key and algorithm. *)
Definition always_signs (key alg : str) : option exn := None.

(** A token library that knows no algorithm: signing raises a
    [JWSError]. *)
Definition never_signs (key alg : str) : option exn :=
  Some (Exn OtherException (lit "Algorithm not supported.")).

Definition token_generation_failed : exn :=
  HTTPException 500 (DetailStr (lit "Failed to generate access token")) [].

Definition admin_login : TokenEndpoint.TokenRequest :=
  {| TokenEndpoint.username := lit "admin";
     TokenEndpoint.password := lit "secure_password_123" |}.

Definition admin_token : str :=
  @encode toy_codec
    {| c_sub := Some (lit "admin");
       c_exp := Some 1700001800%Z;
       c_iat := Some 1700000000%Z;
       c_scopes := Some [lit "qr:generate"] |}
    (secret_key default_settings) (algorithm default_settings).

Definition admin_response : TokenEndpoint.TokenResponse :=
  {| TokenEndpoint.access_token := admin_token;
     TokenEndpoint.token_type := lit "bearer";
     TokenEndpoint.expires_in := 1800 |}.

(** A route that fails with an error of its own. *)
Definition failing_route (request : Request) : result Response :=
  Raise (Exn RuntimeError (lit "database is locked")).

(** A square matrix: every row as long as the matrix is high. *)
Definition square (m : matrix) : Prop :=
  Forall (fun row => length row = length m) m.

End Terms.
Import Terms.


(* ===================================================================== *)
(** * Part III. Theorems *)
(* ===================================================================== *)

(** ** The sample serialisation meets the contract *)

Module SampleFacts.
Local Open Scope N_scope.

Lemma get_put_str (s rest : str) :
  get_str (put_str s ++ rest) = Some (s, rest).
Proof.
  unfold get_str, put_str; simpl.
  rewrite Nat2N.id.
  assert (Hle : Nat.leb (length s) (length (s ++ rest)) = true).
  { apply Nat.leb_le. rewrite length_app. lia. }
  rewrite Hle.
  rewrite firstn_app, Nat.sub_diag, firstn_all; simpl.
  rewrite skipn_app, Nat.sub_diag, skipn_all; simpl.
  now rewrite app_nil_r.
Qed.

Lemma get_put_Z (z : Z) (rest : str) :
  get_Z (put_Z z ++ rest) = Some (z, rest).
Proof.
  unfold get_Z, put_Z; simpl.
  destruct (Z.ltb_spec z 0) as [Hneg | Hpos]; simpl.
  - f_equal. f_equal. rewrite N2Z.inj_abs_N. lia.
  - f_equal. f_equal. rewrite N2Z.inj_abs_N. lia.
Qed.

Lemma get_put_opt {A} (put : A -> str) (get : str -> option (A * str)) :
  (forall a rest, get (put a ++ rest) = Some (a, rest)) ->
  forall o rest, get_opt get (put_opt put o ++ rest) = Some (o, rest).
Proof.
  intros Hrt [a | ] rest; simpl; [ | reflexivity ].
  now rewrite Hrt.
Qed.

Lemma get_put_n_strs (l : list str) (rest : str) :
  get_n_strs (length l) (flat_map put_str l ++ rest) = Some (l, rest).
Proof.
  induction l as [ | s l IH ]; [ reflexivity | ].
  cbn [length flat_map get_n_strs].
  rewrite <- app_assoc, get_put_str, IH. reflexivity.
Qed.

Lemma get_put_strs (l : list str) (rest : str) :
  get_strs (put_strs l ++ rest) = Some (l, rest).
Proof.
  unfold get_strs, put_strs; simpl.
  rewrite Nat2N.id. apply get_put_n_strs.
Qed.

Lemma toy_parse_compact (j : Jws) : toy_parse (toy_compact j) = Some j.
Proof.
  destruct j as [alg [sub_ exp_ iat_ scopes_] key].
  unfold toy_parse, toy_compact; cbn [j_alg j_key j_claims c_sub c_exp
                                      c_iat c_scopes].
  rewrite get_put_str, get_put_str.
  rewrite (get_put_opt put_str get_str get_put_str).
  rewrite (get_put_opt put_Z get_Z get_put_Z).
  rewrite (get_put_opt put_Z get_Z get_put_Z).
  rewrite <- (app_nil_r (put_opt put_strs scopes_)).
  rewrite (get_put_opt put_strs get_strs get_put_strs).
  reflexivity.
Qed.

Lemma toy_codec_reads_back : @reads_back toy_codec.
Proof. exact toy_parse_compact. Qed.

End SampleFacts.

(** ** Strings and bytes *)

Module PyFacts.
Local Open Scope N_scope.

Lemma str_eqb_refl (s : str) : str_eqb s s = true.
Proof.
  induction s as [ | c s IH ]; simpl; [ reflexivity | ].
  unfold cp_eqb. now rewrite N.eqb_refl, IH.
Qed.

Lemma str_eqb_eq (a b : str) : str_eqb a b = true <-> a = b.
Proof.
  split.
  - revert b. induction a as [ | x a IH ]; intros [ | y b ]; simpl;
      try discriminate; [ reflexivity | ].
    intros E. apply andb_true_iff in E as [E1 E2].
    apply N.eqb_eq in E1. subst. f_equal. now apply IH.
  - intros ->. apply str_eqb_refl.
Qed.

(** A code point takes between one and four bytes. *)
Lemma utf8_char_length (c : codepoint) (b : bytes) :
  utf8_char c = Some b -> (1 <= length b <= 4)%nat.
Proof.
  unfold utf8_char.
  repeat match goal with
         | |- context [if ?t then _ else _] => destruct t
         end; intros E; inversion E; simpl; lia.
Qed.

(** The byte length of a string lies between its length and four times
    its length: the character limit and the byte limits are different
    measures. *)
Lemma encode_utf8_length (s : str) (bs : bytes) :
  encode_utf8 s = Some bs ->
  (length s <= length bs <= 4 * length s)%nat.
Proof.
  revert bs. induction s as [ | c s IH ]; simpl; intros bs E.
  - inversion E. simpl. lia.
  - destruct (utf8_char c) as [b | ] eqn:Ec; [ | discriminate ].
    destruct (encode_utf8 s) as [bs' | ] eqn:Es; [ | discriminate ].
    inversion E; subst. rewrite length_app.
    pose proof (utf8_char_length c b Ec). pose proof (IH bs' eq_refl). lia.
Qed.

(** [mixed_widths]: characters of one, two, three and four bytes. *)
Lemma encode_utf8_length_witness :
  (length mixed_widths <= length mixed_widths_utf8
   <= 4 * length mixed_widths)%nat.
Proof.
  exact (encode_utf8_length mixed_widths mixed_widths_utf8 eq_refl).
Defined.

Lemma encode_utf8_ascii (s : str) :
  is_ascii s = true -> encode_utf8 s = Some s.
Proof.
  induction s as [ | c s IH ]; simpl; [ reflexivity | ].
  intros E. apply andb_true_iff in E as [Ec Es].
  unfold utf8_char. rewrite Ec, (IH Es). reflexivity.
Qed.


Lemma is_ascii_repeat (c : codepoint) (n : nat) :
  (c <? 128) = true -> is_ascii (repeat c n) = true.
Proof.
  intros Hc. induction n as [ | n IH ]; simpl; [ reflexivity | ].
  now rewrite Hc, IH.
Qed.



End PyFacts.
Import PyFacts.

(** ** C1: the capacity check of [utils/validators.py] *)

Module CapacityFacts.
Import Validators.

Lemma too_large_not_invalid_characters e m n :
  too_large_message e m n <> lit "Data contains invalid characters".
Proof.
  unfold too_large_message. destruct e; intros E; vm_compute in E;
    discriminate.
Qed.

Lemma validate_capacity_within (data : str) (e : ErrorCorrectionLevel)
    (bs : bytes) :
  encode_utf8 data = Some bs -> length bs <= capacity_limits e ->
  validate_capacity data e = valid.
Proof.
  intros Hbs Hle. unfold validate_capacity. rewrite Hbs.
  apply Nat.ltb_ge in Hle. now rewrite Hle.
Qed.

Lemma validate_capacity_beyond (data : str) (e : ErrorCorrectionLevel)
    (bs : bytes) :
  encode_utf8 data = Some bs -> capacity_limits e < length bs ->
  validate_capacity data e = capacity_exceeded e (length bs).
Proof.
  intros Hbs Hlt. unfold validate_capacity. rewrite Hbs.
  apply Nat.ltb_lt in Hlt. now rewrite Hlt.
Qed.

(** C1. For every payload and every level, [validate_capacity] answers
    "capacity exceeded" exactly when the payload has a UTF-8 encoding
    longer than the table value of the level (L=1663, M=1273, Q=927,
    H=713), and accepts exactly when the encoding is at most that long; a
    payload of exactly the limit passes and one of one byte more fails. *)
Theorem validate_capacity_exact (data : str) (e : ErrorCorrectionLevel) :
  (capacity_limits L = 1663 /\ capacity_limits M = 1273
   /\ capacity_limits Q = 927 /\ capacity_limits H = 713)
  /\ ((exists n, validate_capacity data e = capacity_exceeded e n)
      <-> (exists bs, encode_utf8 data = Some bs
                      /\ capacity_limits e < length bs))
  /\ (validate_capacity data e = valid
      <-> (exists bs, encode_utf8 data = Some bs
                      /\ length bs <= capacity_limits e))
  /\ (forall bs, encode_utf8 data = Some bs ->
        validate_capacity data e =
          if Nat.ltb (capacity_limits e) (length bs)
          then capacity_exceeded e (length bs) else valid)
  /\ validate_capacity (repeat 120%N (capacity_limits e)) e = valid
  /\ validate_capacity (repeat 120%N (S (capacity_limits e))) e
     = capacity_exceeded e (S (capacity_limits e)).
Proof.
  split; [ repeat split | ].
  split; [ | split; [ | split; [ | split ] ] ].
  - split.
    + intros [n E]. unfold validate_capacity in E.
      destruct (encode_utf8 data) as [bs | ] eqn:Hbs.
      * exists bs. split; [ reflexivity | ].
        destruct (Nat.ltb_spec (capacity_limits e) (length bs)) as [Hlt | Hge];
          [ exact Hlt | discriminate ].
      * exfalso. apply (f_equal message) in E. cbn [message] in E.
        symmetry in E. unfold capacity_exceeded in E. cbn [message] in E.
        now apply too_large_not_invalid_characters in E.
    + intros [bs [Hbs Hlt]]. exists (length bs).
      now apply validate_capacity_beyond.
  - split.
    + intros E. unfold validate_capacity in E.
      destruct (encode_utf8 data) as [bs | ] eqn:Hbs; [ | discriminate ].
      exists bs. split; [ reflexivity | ].
      destruct (Nat.ltb_spec (capacity_limits e) (length bs)) as [Hlt | Hge];
        [ discriminate | exact Hge ].
    + intros [bs [Hbs Hle]]. now apply validate_capacity_within with bs.
  - intros bs Hbs.
    destruct (Nat.ltb_spec (capacity_limits e) (length bs)) as [Hlt | Hge].
    + now apply validate_capacity_beyond.
    + now apply validate_capacity_within with bs.
  - apply validate_capacity_within with (repeat 120%N (capacity_limits e)).
    + apply encode_utf8_ascii, is_ascii_repeat. reflexivity.
    + now rewrite repeat_length.
  - rewrite <- (repeat_length 120%N (S (capacity_limits e))) at 2.
    apply validate_capacity_beyond.
    + apply encode_utf8_ascii, is_ascii_repeat. reflexivity.
    + rewrite repeat_length. lia.
Qed.

(** C1 at a payload of four characters and ten bytes, at level H. *)
Lemma validate_capacity_exact_witness :
  validate_capacity mixed_widths H
  = if Nat.ltb (capacity_limits H) (length mixed_widths_utf8)
    then capacity_exceeded H (length mixed_widths_utf8) else valid.
Proof.
  exact (proj1 (proj2 (proj2 (proj2 (validate_capacity_exact
                                       mixed_widths H))))
               mixed_widths_utf8 eq_refl).
Defined.

(** The table decreases as the correction strength grows. *)
Lemma capacity_limits_decreasing :
  capacity_limits H < capacity_limits Q
  /\ capacity_limits Q < capacity_limits M
  /\ capacity_limits M < capacity_limits L.
Proof. cbv [capacity_limits]. lia. Qed.

(** A payload of 800 two-byte characters has 1600 bytes: it is within
    the 2000-character limit, and beyond the byte capacity of level M. *)
Example capacity_counts_bytes :
  validate_capacity (repeat 233%N 800) M = capacity_exceeded M 1600.
Proof. vm_compute. reflexivity. Qed.

End CapacityFacts.

(** ** C10: [sanitize_error_message] *)

Module SanitizeFacts.
Import Validators.
Local Open Scope N_scope.

Lemma strip_angle_filter (message : str) :
  strip_angle message = filter not_angle message.
Proof. reflexivity. Qed.

Lemma strip_angle_clean (message : str) :
  ~ In 60 (strip_angle message) /\ ~ In 62 (strip_angle message).
Proof.
  split; intros Hin; apply filter_In in Hin as [_ Hc]; discriminate.
Qed.

Lemma firstn_clean (n : nat) (s : str) (c : codepoint) :
  ~ In c s -> ~ In c (firstn n s).
Proof.
  intros Hc. rewrite <- (firstn_skipn n s) in Hc.
  intros Hin. apply Hc, in_or_app. now left.
Qed.

(** C10 as amended. The result has at most 200 characters and contains
    neither '<' nor '>'.  The length test is taken after the removal: when
    what is left of the input has at most 200 characters (in particular
    when the input itself has), the result is the input with exactly those
    two characters removed; when more than 200 are left, the result is the
    first 197 of them followed by three dots. *)
Theorem sanitize_error_message_spec (message : str) :
  (length (sanitize_error_message message) <= 200)%nat
  /\ ~ In 60 (sanitize_error_message message)
  /\ ~ In 62 (sanitize_error_message message)
  /\ ((length (filter not_angle message) <= 200)%nat ->
      sanitize_error_message message = filter not_angle message)
  /\ ((length message <= 200)%nat ->
      sanitize_error_message message = filter not_angle message)
  /\ ((200 < length (filter not_angle message))%nat ->
      sanitize_error_message message
        = firstn 197 (filter not_angle message) ++ lit "..."
      /\ length (sanitize_error_message message) = 200%nat).
Proof.
  unfold sanitize_error_message. rewrite strip_angle_filter.
  destruct (strip_angle_clean message) as [Hlt Hgt].
  rewrite strip_angle_filter in Hlt, Hgt.
  destruct (Nat.ltb_spec 200 (length (filter not_angle message)))
    as [Hlong | Hshort].
  - assert (Hlen : length (firstn 197 (filter not_angle message)
                           ++ lit "...") = 200%nat).
    { rewrite length_app, firstn_length_le by lia. reflexivity. }
    repeat split.
    + lia.
    + intros Hin. apply in_app_or in Hin as [Hin | Hin].
      * now apply (firstn_clean 197 _ _ Hlt).
      * vm_compute in Hin. intuition discriminate.
    + intros Hin. apply in_app_or in Hin as [Hin | Hin].
      * now apply (firstn_clean 197 _ _ Hgt).
      * vm_compute in Hin. intuition discriminate.
    + lia.
    + intros Hle. pose proof (filter_length_le not_angle message). lia.
    + exact Hlen.
  - repeat split; try assumption; try reflexivity; lia.
Qed.

(** C10 at a short message with markup. *)
Lemma sanitize_error_message_spec_witness :
  sanitize_error_message (lit "<b>boom</b>")
  = filter not_angle (lit "<b>boom</b>").
Proof.
  apply (proj1 (proj2 (proj2 (proj2 (sanitize_error_message_spec
                                       (lit "<b>boom</b>")))))).
  vm_compute. lia.
Defined.

(** C10 as stated fails: an input of 201 characters, one of them '<', is
    longer than 200 and is returned whole, less the '<': nothing is cut
    and no dots are added. *)
Lemma sanitize_long_input_not_truncated :
  length long_but_clean = 201%nat
  /\ sanitize_error_message long_but_clean = repeat 97 200
  /\ sanitize_error_message long_but_clean
     <> firstn 197 (filter not_angle long_but_clean) ++ lit "...".
Proof.
  split; [ reflexivity | ]. split; [ vm_compute; reflexivity | ].
  vm_compute. discriminate.
Qed.

End SanitizeFacts.

(** ** The matcher decides the language of a pattern *)

Module ReFacts.

Lemma matches_Void (w : str) : ~ matches Void w.
Proof. intros M. inversion M. Qed.

Lemma matches_Eps (w : str) : matches Eps w -> w = [].
Proof. intros M. now inversion M. Qed.

Lemma matches_cat (r s : regex) (w : str) :
  matches (cat r s) w <-> matches (Cat r s) w.
Proof.
  assert (Hvoid : forall r', ~ matches (Cat r' Void) w).
  { intros r' M. inversion M; subst.
    match goal with M' : matches Void _ |- _ => inversion M' end. }
  destruct r; cbn [cat];
    try (destruct s; try reflexivity;
         split; intros M; exfalso;
         [ now apply matches_Void in M | now apply Hvoid in M ]).
  - split; intros M; [ now apply matches_Void in M | ].
    inversion M; subst.
    match goal with M' : matches Void _ |- _ => inversion M' end.
  - split; intros M.
    + change w with ([] ++ w). constructor; [ constructor | exact M ].
    + inversion M; subst.
      match goal with M' : matches Eps _ |- _ =>
        apply matches_Eps in M'; subst end.
      assumption.
Qed.

Lemma matches_alt (r s : regex) (w : str) :
  matches (alt r s) w <-> matches (Alt r s) w.
Proof.
  assert (Hl : matches s w <-> matches (Alt Void s) w).
  { split; intros M; [ now apply MAltR | ].
    inversion M; subst; [ | assumption ].
    match goal with M' : matches Void _ |- _ => inversion M' end. }
  assert (Hr : forall r', matches r' w <-> matches (Alt r' Void) w).
  { intros r'. split; intros M; [ now apply MAltL | ].
    inversion M; subst; [ assumption | ].
    match goal with M' : matches Void _ |- _ => inversion M' end. }
  destruct r; cbn [alt]; try exact Hl;
    destruct s; try reflexivity; apply Hr.
Qed.

(** With a body that matches the empty string, a repetition with room
    for one more copy can take an empty one. *)
Lemma rep_lift (lo hi : nat) (r : regex) (w : str) :
  matches r [] -> matches (Rep lo hi r) w ->
  matches (Rep (S lo) (S hi) r) w.
Proof.
  intros Hnil M. change w with ([] ++ w). now constructor.
Qed.

Lemma rep_more (r : regex) (w : str) :
  forall hi, matches (Rep 0 hi r) w -> matches (Rep 0 (S hi) r) w.
Proof.
  intros hi M. remember (Rep 0 hi r) as q eqn:Eq. revert hi Eq.
  induction M; intros hi' Eq; try discriminate.
  - constructor.
  - injection Eq as E1 E2 E3. subst. constructor; [ assumption | ].
    cbn [Nat.pred] in *. now apply IHM2.
Qed.

Lemma rep_nil (r : regex) :
  matches r [] ->
  forall lo hi, lo <= hi -> matches (Rep lo hi r) [].
Proof.
  intros Hnil. induction lo as [ | lo IH ]; intros hi Hle.
  - constructor.
  - destruct hi as [ | hi ]; [ lia | ].
    change (@nil codepoint) with (@nil codepoint ++ []).
    constructor; [ assumption | ]. apply IH. cbn [Nat.pred]. lia.
Qed.

Lemma nullable_matches (r : regex) :
  nullable r = true <-> matches r [].
Proof.
  split.
  - induction r; cbn [nullable]; intros E; try discriminate.
    + constructor.
    + apply andb_true_iff in E as [E1 E2].
      change (@nil codepoint) with (@nil codepoint ++ []).
      constructor; auto.
    + apply orb_true_iff in E as [E | E];
        [ apply MAltL | apply MAltR ]; auto.
    + constructor.
    + apply orb_true_iff in E as [E | E].
      * apply Nat.eqb_eq in E. subst. constructor.
      * apply andb_true_iff in E as [E1 E2]. apply Nat.leb_le in E2.
        apply rep_nil; auto.
  - intros M. remember (@nil codepoint) as w eqn:Ew.
    induction M; cbn [nullable]; try reflexivity; try discriminate.
    + apply app_eq_nil in Ew as [-> ->].
      now rewrite IHM1, IHM2.
    + now rewrite IHM.
    + rewrite IHM by assumption. apply orb_true_r.
    + apply app_eq_nil in Ew as [-> ->].
      rewrite IHM1 by reflexivity.
      specialize (IHM2 eq_refl). cbn [nullable] in IHM2.
      apply orb_true_iff in IHM2 as [E | E].
      * apply Nat.eqb_eq in E.
        assert (Hle : Nat.leb lo (S hi) = true)
          by (apply Nat.leb_le; lia).
        rewrite Hle. apply orb_true_r.
      * apply andb_true_iff in E as [_ E]. apply Nat.leb_le in E.
        assert (Hle : Nat.leb lo (S hi) = true)
          by (apply Nat.leb_le; lia).
        rewrite Hle. apply orb_true_r.
Qed.

(** A starred pattern that matches a non-empty string spends a
    non-empty first copy on it. *)
Lemma star_cons (r : regex) (c : codepoint) (w : str) :
  matches (Star r) (c :: w) ->
  exists u v, w = u ++ v /\ matches r (c :: u) /\ matches (Star r) v.
Proof.
  intros M. remember (Star r) as q eqn:Eq.
  remember (c :: w) as cw eqn:Ecw. revert Eq Ecw.
  induction M; intros Eq Ecw; try discriminate.
  injection Eq as ->.
  destruct u as [ | d u ].
  - cbn [app] in Ecw. now apply IHM2.
  - cbn [app] in Ecw. injection Ecw as E1 E2. subst d w.
    now exists u, v.
Qed.

Lemma rep_cons (r : regex) (c : codepoint) (w : str) :
  forall lo hi,
    matches (Rep lo hi r) (c :: w) ->
    exists h u v, hi = S h /\ w = u ++ v /\ matches r (c :: u)
                  /\ matches (Rep (Nat.pred lo) h r) v.
Proof.
  intros lo hi M. remember (Rep lo hi r) as q eqn:Eq.
  remember (c :: w) as cw eqn:Ecw. revert lo hi Eq Ecw.
  induction M; intros lo' hi' Eq Ecw; try discriminate.
  injection Eq as E1 E2 E3. subst lo' hi' r0.
  destruct u as [ | d u ].
  - cbn [app] in Ecw.
    destruct (IHM2 _ _ eq_refl Ecw) as (h & u & v' & -> & -> & Hr & Hrest).
    exists (S h), u, v'. repeat split; try assumption.
    destruct (Nat.pred lo) as [ | l ]; cbn [Nat.pred] in Hrest.
    + now apply rep_more.
    + now apply rep_lift.
  - cbn [app] in Ecw. injection Ecw as E1 E2. subst d w.
    now exists hi, u, v.
Qed.

Lemma deriv_matches (r : regex) :
  forall c w, matches (deriv c r) w <-> matches r (c :: w).
Proof.
  induction r; intros c w; cbn [deriv].
  - split; intros M; inversion M.
  - split; intros M; inversion M.
  - destruct (p c) eqn:Hp; split; intros M.
    + apply matches_Eps in M. subst. now constructor.
    + inversion M; subst. constructor.
    + inversion M.
    + inversion M; subst. congruence.
  - rewrite matches_alt. split; intros M.
    + inversion M; subst.
      * match goal with M' : matches (cat _ _) _ |- _ =>
          apply matches_cat in M'; inversion M'; subst end.
        change (c :: u ++ v) with ((c :: u) ++ v).
        constructor; [ now apply IHr1 | assumption ].
      * destruct (nullable r1) eqn:Hn;
          [ | match goal with M' : matches Void _ |- _ =>
                inversion M' end ].
        change (c :: w) with ([] ++ c :: w).
        constructor; [ now apply nullable_matches | now apply IHr2 ].
    + inversion M; subst.
      destruct u as [ | d u ]; cbn [app] in *.
      * subst. apply MAltR.
        match goal with M' : matches r1 [] |- _ =>
          apply nullable_matches in M'; rewrite M' end.
        now apply IHr2.
      * match goal with E : _ :: _ = _ :: _ |- _ =>
          injection E as E1 E2; subst end.
        apply MAltL, matches_cat. constructor; [ now apply IHr1 | assumption ].
  - rewrite matches_alt. split; intros M; inversion M; subst.
    + apply MAltL. now apply IHr1.
    + apply MAltR. now apply IHr2.
    + apply MAltL. now apply IHr1.
    + apply MAltR. now apply IHr2.
  - rewrite matches_cat. split; intros M.
    + inversion M; subst.
      change (c :: u ++ v) with ((c :: u) ++ v).
      constructor; [ now apply IHr | assumption ].
    + apply star_cons in M as (u & v & -> & Hr & Hrest).
      constructor; [ now apply IHr | assumption ].
  - destruct hi as [ | hi ].
    + split; intros M; [ inversion M | ].
      apply rep_cons in M as (h & _ & _ & E & _). discriminate.
    + rewrite matches_cat. split; intros M.
      * inversion M; subst.
        change (c :: u ++ v) with ((c :: u) ++ v).
        constructor; [ now apply IHr | assumption ].
      * apply rep_cons in M as (h & u & v & E & -> & Hr & Hrest).
        injection E as <-.
        constructor; [ now apply IHr | assumption ].
Qed.

(** [match_dollar] accepts the strings of the language, and those
    strings followed by one newline. *)
Theorem match_dollar_spec (s : str) :
  forall r,
    match_dollar r s = true
    <-> matches r s \/ exists u, s = u ++ [10%N] /\ matches r u.
Proof.
  induction s as [ | c s IH ]; intros r.
  - cbn [match_dollar]. rewrite nullable_matches. split.
    + now left.
    + intros [M | (u & E & _)]; [ assumption | ].
      destruct u; discriminate.
  - cbn [match_dollar]. rewrite orb_true_iff, IH. split.
    + intros [E | [M | (u & -> & M)]].
      * apply andb_true_iff in E as [E Hn].
        apply andb_true_iff in E as [Ec Es].
        apply N.eqb_eq in Ec. subst c.
        destruct s; [ | discriminate ].
        right. exists []. split; [ reflexivity | ].
        now apply nullable_matches.
      * left. now apply deriv_matches.
      * right. exists (c :: u). split; [ reflexivity | ].
        now apply deriv_matches.
    + intros [M | (u & E & M)].
      * right. left. now apply deriv_matches.
      * destruct u as [ | d u ]; cbn [app] in E.
        -- injection E as -> ->. left.
           apply nullable_matches in M. now rewrite M.
        -- injection E as -> ->. right. right.
           exists u. split; [ reflexivity | ]. now apply deriv_matches.
Qed.

End ReFacts.

(** ** C6: the URL check of [validate_qr_data] *)

Module UrlFacts.
Import Validators.
Local Open Scope N_scope.

Lemma match_dollar_Void (s : str) : match_dollar Void s = false.
Proof.
  induction s as [ | c s IH ]; simpl; [ reflexivity | ].
  rewrite IH. now rewrite andb_false_r.
Qed.

Lemma match_dollar_cons (r : regex) (c : codepoint) (s : str) :
  match_dollar r (c :: s) =
    ((c =? 10) && match s with [] => true | _ => false end && nullable r)
    || match_dollar (deriv c r) s.
Proof. reflexivity. Qed.

Lemma lstrip_snoc (l : str) (c : codepoint) :
  isspace c = false -> lstrip (l ++ [c]) <> [].
Proof.
  intros Hc. induction l as [ | d l IH ]; simpl.
  - rewrite Hc. discriminate.
  - destruct (isspace d); [ exact IH | discriminate ].
Qed.

(** A string that starts with a character that is no whitespace is not
    blank. *)
Lemma strip_head (c : codepoint) (s : str) :
  isspace c = false -> strip (c :: s) <> [].
Proof.
  intros Hc. unfold strip, rstrip. simpl lstrip. rewrite Hc.
  intros E. apply (f_equal (@rev codepoint)) in E.
  rewrite rev_involutive in E. simpl in E.
  now apply (lstrip_snoc (rev s) c Hc).
Qed.

Lemma not_blank (c : codepoint) (s : str) :
  isspace c = false -> blank (c :: s) = false.
Proof.
  intros Hc. unfold blank. pose proof (strip_head c s Hc) as Hs.
  destruct (strip (c :: s)); [ contradiction | reflexivity ].
Qed.

Lemma startswith_head (d c : codepoint) (s p : str) :
  startswith (d :: s) (c :: p) = true -> d = c.
Proof.
  simpl. intros E. apply andb_true_iff in E as [E _].
  apply N.eqb_eq in E. now symmetry.
Qed.

Lemma url_prefix_head (data : str) :
  startswith_any data url_prefixes = true ->
  exists c s, data = c :: s /\ isspace c = false.
Proof.
  unfold startswith_any, url_prefixes. cbn [existsb].
  destruct data as [ | c s ]; [ discriminate | ].
  intros E. exists c, s. split; [ reflexivity | ].
  change (lit "http://") with (104 :: lit "ttp://") in E.
  change (lit "https://") with (104 :: lit "ttps://") in E.
  change (lit "ftp://") with (102 :: lit "tp://") in E.
  repeat (apply orb_true_iff in E as [E | E]);
    try discriminate;
    apply startswith_head in E; subst c; reflexivity.
Qed.

Lemma url_prefix_not_blank (data : str) :
  startswith_any data url_prefixes = true -> blank data = false.
Proof.
  intros E. destruct (url_prefix_head data E) as (c & s & -> & Hc).
  now apply not_blank.
Qed.

Section WithTables.
Context `{UnicodeData}.

(** [is_valid_url] accepts the strings of the pattern's language, and
    those strings followed by one newline. *)
Lemma is_valid_url_language (url : str) :
  is_valid_url url = true
  <-> matches url_pattern url
      \/ exists u, url = u ++ [10] /\ matches url_pattern u.
Proof. apply ReFacts.match_dollar_spec. Qed.

(** The pattern begins with [http]: its derivative by any other first
    letter is empty. *)
Lemma deriv_url_pattern_f : deriv 102 url_pattern = Void.
Proof. reflexivity. Qed.

(** The pattern admits the schemes [http] and [https] only: a payload
    that starts with [ftp://] is never a valid URL for [is_valid_url]. *)
Lemma ftp_never_valid (data : str) :
  startswith data (lit "ftp://") = true -> is_valid_url data = false.
Proof.
  destruct data as [ | c s ]; [ discriminate | ].
  change (lit "ftp://") with (102 :: lit "tp://").
  intros E. apply startswith_head in E. subst c.
  unfold is_valid_url. rewrite match_dollar_cons.
  rewrite deriv_url_pattern_f, match_dollar_Void. reflexivity.
Qed.

Lemma validate_qr_data_unfold (data : str) :
  validate_qr_data data =
    if blank data then invalid "Data cannot be empty"
    else if Nat.ltb 2000 (length data) then
      invalid "Data exceeds maximum length of 2000 characters"
    else if startswith_any data url_prefixes && negb (is_valid_url data)
      then invalid "Invalid URL format"
    else match encode_utf8 data with
         | None => invalid "Data contains invalid characters"
         | Some _ => valid
         end.
Proof. reflexivity. Qed.

(** Every payload that starts with [ftp://] fails validation: with the
    maximum-length error when it has more than 2000 characters, with
    "Invalid URL format" otherwise. *)
Lemma ftp_payload_rejected (rest : str) :
  validate_qr_data (lit "ftp://" ++ rest)
  = if Nat.ltb 2000 (length (lit "ftp://" ++ rest))
    then invalid "Data exceeds maximum length of 2000 characters"
    else invalid "Invalid URL format".
Proof.
  rewrite validate_qr_data_unfold.
  assert (Hpre : startswith_any (lit "ftp://" ++ rest) url_prefixes = true).
  { unfold startswith_any, url_prefixes. cbn [existsb].
    assert (E : startswith (lit "ftp://" ++ rest) (lit "ftp://") = true).
    { vm_compute. reflexivity. }
    rewrite E. now rewrite !orb_true_r. }
  assert (Hftp : startswith (lit "ftp://" ++ rest) (lit "ftp://") = true).
  { vm_compute. reflexivity. }
  rewrite (url_prefix_not_blank _ Hpre), Hpre, (ftp_never_valid _ Hftp).
  reflexivity.
Qed.


End WithTables.

(** The payloads of the repository's tests and of the spec's scenarios. *)
Example url_samples :
  map (fun s => @is_valid_url ascii_digits_only (lit s))
      [ "https://example.com"; "https://www.google.com/search?q=test";
        "http://localhost:8000/docs"; "http://127.0.0.1";
        "https://invalid-url-without-tld";
        "ftp://files.example.com/data.txt" ]%string
  = [true; true; true; true; false; false].
Proof. vm_compute. reflexivity. Qed.

Example invalid_url_rejected :
  @validate_qr_data ascii_digits_only (lit "https://invalid-url-without-tld")
  = invalid "Invalid URL format".
Proof. vm_compute. reflexivity. Qed.



End UrlFacts.

(** ** C9: the SVG document *)

Module SvgFacts.
Import Generator.
Local Open Scope nat_scope.

(** *** The loops *)

Lemma inner_loop (row : nat) (r : list bool) :
  forall (col : nat) (acc : list str),
    fold_left
      (fun svg_lines '(col, module) =>
         if module : bool then
           svg_lines
           ++ [svg_module ((col + border) * box_size)
                          ((row + border) * box_size)]
         else svg_lines)
      (combine (seq col (length r)) r) acc
    = acc ++ row_lines row col r.
Proof.
  induction r as [ | b r IH ]; intros col acc; simpl.
  - now rewrite app_nil_r.
  - rewrite IH. destruct b; simpl.
    + now rewrite <- app_assoc.
    + reflexivity.
Qed.

Lemma svg_append_row_lines (acc : list str) (row : nat) (r : list bool) :
  svg_append_row acc row r = acc ++ row_lines row 0 r.
Proof. apply inner_loop. Qed.

Lemma outer_loop (m : matrix) :
  forall (row : nat) (acc : list str),
    fold_left
      (fun svg_lines '(row, matrix_row) =>
         svg_append_row svg_lines row matrix_row)
      (combine (seq row (length m)) m) acc
    = acc ++ matrix_lines row m.
Proof.
  induction m as [ | r m IH ]; intros row acc; simpl.
  - now rewrite app_nil_r.
  - rewrite IH, svg_append_row_lines. now rewrite <- app_assoc.
Qed.

Lemma svg_lines_of_shape (m : matrix) :
  svg_lines_of m
  = svg_header ((length m + 2 * border) * box_size)
    ++ matrix_lines 0 m ++ [lit "</svg>"].
Proof.
  unfold svg_lines_of, enumerate. rewrite outer_loop.
  now rewrite <- app_assoc.
Qed.

(** *** Distinct modules give distinct rectangles *)







(** *** Counting rectangles *)





Lemma row_lines_In (r : list bool) :
  forall row col0 line,
    In line (row_lines row col0 r) ->
    exists col, col0 <= col /\ nth (col - col0) r false = true
                /\ line = svg_cell row col.
Proof.
  induction r as [ | b r IH ]; intros row col0 line Hin; [ contradiction | ].
  cbn [row_lines] in Hin. apply in_app_or in Hin as [Hin | Hin].
  - destruct b; [ | contradiction ].
    destruct Hin as [<- | []]. exists col0.
    rewrite Nat.sub_diag. auto.
  - apply IH in Hin as (col & Hle & Hnth & ->).
    exists col. split; [ lia | ]. split; [ | reflexivity ].
    replace (col - col0) with (S (col - S col0)) by lia. exact Hnth.
Qed.

Lemma matrix_lines_In (m : matrix) :
  forall row0 line,
    In line (matrix_lines row0 m) ->
    exists row col, row0 <= row /\ module_at m (row - row0) col = true
                    /\ line = svg_cell row col.
Proof.
  induction m as [ | r m IH ]; intros row0 line Hin; [ contradiction | ].
  cbn [matrix_lines] in Hin. apply in_app_or in Hin as [Hin | Hin].
  - apply row_lines_In in Hin as (col & _ & Hnth & ->).
    exists row0, col. rewrite Nat.sub_diag, Nat.sub_0_r in *.
    auto.
  - apply IH in Hin as (row & col & Hle & Hmod & ->).
    exists row, col. split; [ lia | ]. split; [ | reflexivity ].
    unfold module_at in *.
    replace (row - row0) with (S (row - S row0)) by lia. exact Hmod.
Qed.

(** *** The document is ASCII, so its bytes are its text *)









(** The document for [sample_matrix]: 100 by 100, two black modules. *)
Example sample_svg :
  @_generate_svg_qr working_libs (hello SVG)
  = Return (join newline
      [ lit "<?xml version=" ++ dq ++ lit "1.0" ++ dq ++ lit " encoding="
          ++ dq ++ lit "UTF-8" ++ dq ++ lit "?>";
        lit "<svg width=" ++ dq ++ lit "100" ++ dq ++ lit " height=" ++ dq
          ++ lit "100" ++ dq ++ lit " xmlns=" ++ dq
          ++ lit "http://www.w3.org/2000/svg" ++ dq ++ lit ">";
        lit "<rect width=" ++ dq ++ lit "100%" ++ dq ++ lit " height=" ++ dq
          ++ lit "100%" ++ dq ++ lit " fill=" ++ dq ++ lit "white" ++ dq
          ++ lit "/>";
        lit "<rect x=" ++ dq ++ lit "40" ++ dq ++ lit " y=" ++ dq
          ++ lit "40" ++ dq ++ lit " width=" ++ dq ++ lit "10" ++ dq
          ++ lit " height=" ++ dq ++ lit "10" ++ dq ++ lit " fill=" ++ dq
          ++ lit "black" ++ dq ++ lit "/>";
        lit "<rect x=" ++ dq ++ lit "50" ++ dq ++ lit " y=" ++ dq
          ++ lit "50" ++ dq ++ lit " width=" ++ dq ++ lit "10" ++ dq
          ++ lit " height=" ++ dq ++ lit "10" ++ dq ++ lit " fill=" ++ dq
          ++ lit "black" ++ dq ++ lit "/>";
        lit "</svg>" ]).
Proof. vm_compute. reflexivity. Qed.

End SvgFacts.

(** ** C2: the lifetime of an issued token *)

Module TokenFacts.
Import AuthService.
Local Open Scope Z_scope.

Section WithCodec.
Context `{Codec}.
Hypothesis codec_reads_back : reads_back.
Variable settings : Settings.
Variable user : User.

Lemma create_access_token_payload (host : Host) (now : instant)
    (expires_delta : option timedelta) :
  create_access_token settings host now user expires_delta
  = encode (TokenPayload_dict (issued user host now (effective_ttl settings expires_delta)))
           (secret_key settings) (algorithm settings).
Proof.
  unfold create_access_token, issued, effective_ttl.
  destruct expires_delta as [d | ]; [ | reflexivity ].
  destruct (d =? 0); reflexivity.
Qed.

(** The library reads back what it wrote, and then looks at [exp]. *)
Lemma decode_encode (now : instant) (claims : Claims) (key alg : str) :
  decode now (encode claims key alg) key [alg]
  = match c_exp claims with
    | Some e =>
        if e <? timegm_utc now then
          Raise (Exn ExpiredSignatureError (lit "Signature has expired."))
        else Return claims
    | None => Return claims
    end.
Proof.
  unfold decode, encode. rewrite codec_reads_back.
  cbn [j_alg j_key j_claims existsb].
  rewrite !str_eqb_refl. reflexivity.
Qed.

(** What verification answers for an issued token, at any time. *)
Lemma verify_issued (host : Host) (now : instant)
    (expires_delta : option timedelta) (t : instant) :
  verify_token settings t
    (create_access_token settings host now user expires_delta)
  = if exp (issued user host now (effective_ttl settings expires_delta))
         <? timegm_utc t
    then Raise expired_error
    else Return (issued user host now (effective_ttl settings expires_delta)).
Proof.
  rewrite create_access_token_payload. unfold verify_token.
  rewrite decode_encode. cbn [TokenPayload_dict c_exp].
  destruct (exp (issued user host now (effective_ttl settings expires_delta))
            <? timegm_utc t); reflexivity.
Qed.



End WithCodec.


(** [verify_issued] for a token issued without a TTL, east of
    Greenwich: the naive timestamp puts the expiry an hour early. *)
Lemma verify_issued_witness :
  @verify_token toy_codec default_settings (t0 + minutes 31)
    (@create_access_token toy_codec default_settings
       {| utcoffset := 3600 |} t0 alice None)
  = if exp (issued alice {| utcoffset := 3600 |} t0
              (effective_ttl default_settings None))
         <? timegm_utc (t0 + minutes 31)
    then Raise expired_error
    else Return (issued alice {| utcoffset := 3600 |} t0
                   (effective_ttl default_settings None)).
Proof.
  exact (@verify_issued toy_codec SampleFacts.toy_codec_reads_back
           default_settings alice {| utcoffset := 3600 |} t0 None
           (t0 + minutes 31)).
Defined.


End TokenFacts.

(** ** C5 and C8: what a rejected request is told *)

Module AccessFacts.
Import AuthService Middleware App.
Local Open Scope Z_scope.

Lemma split_on_nonempty (sep : codepoint) (s : str) : split_on sep s <> [].
Proof.
  destruct s as [ | c s ]; simpl; [ discriminate | ].
  destruct (cp_eqb c sep); [ discriminate | ].
  destruct (split_on sep s); discriminate.
Qed.

(** A header value that starts with [Bearer ] has a second word. *)
Lemma bearer_has_token (authorization : str) :
  startswith authorization (lit "Bearer ") = true ->
  truthy authorization = true
  /\ exists token, nth_error (split_on 32%N authorization) 1 = Some token.
Proof.
  intros E.
  assert (Hshape : exists rest,
             authorization = lit "Bearer " ++ rest).
  { change (lit "Bearer ")
      with [66; 101; 97; 114; 101; 114; 32]%N in *.
    repeat (destruct authorization as [ | ? authorization ];
            [ discriminate | ];
            apply andb_true_iff in E as [Hc E];
            apply N.eqb_eq in Hc; subst).
    now exists authorization. }
  destruct Hshape as [rest ->]. split; [ reflexivity | ].
  change (split_on 32%N (lit "Bearer " ++ rest))
    with (lit "Bearer" :: split_on 32%N rest).
  pose proof (split_on_nonempty 32%N rest) as Hne.
  destruct (split_on 32%N rest) as [ | w ws ]; [ contradiction | ].
  now exists w.
Qed.

Section WithCodec.
Context `{Codec}.
Variable settings : Settings.

(** The library raises errors of its own class only. *)
Lemma decode_raises_JWTError (now : instant) (token key : str)
    (algorithms : list str) (e : exn) :
  decode now token key algorithms = Raise e -> is_JWTError e = true.
Proof.
  unfold decode. destruct (parse token) as [j | ].
  - destruct (negb (existsb (str_eqb (j_alg j)) algorithms)).
    + intros E. inversion E. reflexivity.
    + destruct (negb (str_eqb (j_key j) key)).
      * intros E. inversion E. reflexivity.
      * destruct (c_exp (j_claims j)) as [e' | ]; [ | discriminate ].
        destruct (e' <? timegm_utc now); [ | discriminate ].
        intros E. inversion E. reflexivity.
  - intros E. inversion E. reflexivity.
Qed.


(** What the middleware answers a request to a protected path that
    carries no [Authorization] header. *)
Lemma missing_authorization (now : instant) (request : Request)
    (call_next : Request -> result Response) :
  skips_authentication request.(path) = false ->
  headers_get (lit "Authorization") request.(headers) = None ->
  auth_middleware settings now request call_next
  = Raise (unauthorized "Missing authentication token").
Proof.
  intros Hpath Hget. unfold auth_middleware, authenticate.
  rewrite Hpath, Hget. reflexivity.
Qed.

(** What the application answers on [/v1/health]. *)
Lemma health_status (other_routes : Request -> Response)
    (now : instant) (process_time : str) (request : Request) :
  request.(path) = lit "/v1/health" ->
  status_of (app settings other_routes now process_time request) = 200
  \/ status_of (app settings other_routes now process_time request) = 405.
Proof.
  intros Hpath. unfold app, auth_middleware. rewrite Hpath.
  change (skips_authentication (lit "/v1/health")) with true.
  cbv iota. unfold logging_middleware, router. rewrite Hpath.
  change (str_eqb (lit "/v1/health") (lit "/v1/health")) with true.
  cbv iota.
  destruct (str_eqb request.(method) (lit "GET")); cbn; auto.
Qed.

(** C8, as the code has it. A request to a protected path that carries
    no [Authorization] header is refused with status 401 and the detail
    "Missing authentication token"; the error has no category, whatever
    the routes behind the middleware would do.  A request to [/v1/health]
    is never answered with 401, whatever its headers. *)
Theorem missing_authorization_refused (now : instant) (request : Request)
    (call_next : Request -> result Response)
    (other_routes : Request -> Response) (process_time : str) :
  (skips_authentication request.(path) = false ->
   headers_get (lit "Authorization") request.(headers) = None ->
   auth_middleware settings now request call_next
     = Raise (unauthorized "Missing authentication token")
   /\ status_of (auth_middleware settings now request call_next) = 401
   /\ error_category (auth_middleware settings now request call_next)
      = None
   /\ error_category (auth_middleware settings now request call_next)
      <> Some (lit "authentication_error"))
  /\ (request.(path) = lit "/v1/health" ->
      status_of (app settings other_routes now process_time request)
      <> 401).
Proof.
  split.
  - intros Hpath Hget.
    rewrite (missing_authorization now request call_next Hpath Hget).
    repeat split. discriminate.
  - intros Hpath.
    destruct (health_status other_routes now process_time request Hpath)
      as [E | E]; rewrite E; discriminate.
Qed.


End WithCodec.

(** C8 at [anonymous_post]: 401, and no category. *)
Lemma missing_authorization_refused_witness :
  @auth_middleware toy_codec default_settings t0 anonymous_post downstream
  = Raise (unauthorized "Missing authentication token")
  /\ status_of (@auth_middleware toy_codec default_settings t0
                  anonymous_post downstream) = 401
  /\ error_category (@auth_middleware toy_codec default_settings t0
                       anonymous_post downstream) = None
  /\ error_category (@auth_middleware toy_codec default_settings t0
                       anonymous_post downstream)
     <> Some (lit "authentication_error").
Proof.
  exact (proj1 (@missing_authorization_refused toy_codec default_settings
                  t0 anonymous_post downstream
                  (fun _ => plain 404 "Not Found") (lit "0.1"))
               eq_refl eq_refl).
Defined.




End AccessFacts.

(** ** C7: the capacity check of the request model *)

Module ModelFacts.
Import Validators.

Lemma check_data_field_returns (data v : str) :
  check_data_field data = Return v -> v = data.
Proof.
  unfold check_data_field.
  destruct (Nat.ltb (length data) 1); [ discriminate | ].
  destruct (Nat.ltb 2000 (length data)); [ discriminate | ].
  intros E. now inversion E.
Qed.

Lemma validate_data_returns `{UnicodeData} (data v : str) :
  validate_data data = Return v -> v = data.
Proof.
  unfold validate_data.
  destruct (negb (truthy data) || negb (truthy (strip data)));
    [ discriminate | ].
  destruct (startswith_any data url_prefixes
            && negb (match_dollar url_pattern data)); [ discriminate | ].
  destruct (encode_utf8 data); [ | discriminate ].
  intros E. now inversion E.
Qed.

(** Given the level, the model's validator and the service's check agree. *)
Lemma capacity_checks_agree_given_level (v : str)
    (ec : ErrorCorrectionLevel) :
  Requests.validate_capacity v [("error_correction"%string, FEcc ec)]
    = Return v
  <-> is_valid (Validators.validate_capacity v ec) = true.
Proof.
  unfold Requests.validate_capacity, Validators.validate_capacity.
  change (values_get "error_correction"
            [("error_correction"%string, FEcc ec)])
    with (Some (FEcc ec)).
  destruct (encode_utf8 v) as [bs | ].
  - destruct (Nat.ltb (capacity_limits ec) (length bs)); cbn [is_valid];
      split; intros E; try reflexivity; discriminate.
  - split; discriminate.
Qed.

(** C7, as the code has it. The validator [validate_capacity] of the
    request model runs while [data], the first field, is validated: the
    [values] it receives are empty, it finds no ["error_correction"]
    there, and it returns the payload unchecked.  So a request is never
    refused by the model for its size: whatever refusal the construction
    raises comes from the field limits or from [validate_data].  The
    service's check does refuse: the payload [oversized] at level H
    builds a request, and fails [validate_capacity] of the service. *)
Theorem request_model_skips_capacity `{UnicodeData} :
  (forall v, Requests.validate_capacity v [] = Return v)
  /\ (forall data size_ format_ ec enc e,
        QRCodeRequest_init data size_ format_ ec enc = Raise e ->
        check_data_field data = Raise e
        \/ as_validation_error (validate_data data) = Raise e)
  /\ QRCodeRequest_init oversized MEDIUM PNG H BINARY
     = Return {| data := oversized; size := MEDIUM; format := PNG;
                 error_correction := H; output_format := BINARY |}
  /\ Validators.validate_capacity oversized H
     = {| is_valid := false;
          message := too_large_message H 713 714 |}.
Proof.
  split; [ reflexivity | ]. split; [ | split ].
  - intros data size_ format_ ec enc e. unfold QRCodeRequest_init.
    destruct (check_data_field data) as [v | e1] eqn:Hc; cbn [bind].
    + apply check_data_field_returns in Hc. subst v.
      destruct (as_validation_error (validate_data data)) as [v | e2];
        cbn [bind].
      * discriminate.
      * intros E. right. inversion E. reflexivity.
    + intros E. left. inversion E. reflexivity.
  - unfold QRCodeRequest_init.
    assert (Hc : check_data_field oversized = Return oversized)
      by (vm_compute; reflexivity).
    assert (Hv : validate_data oversized = Return oversized).
    { unfold validate_data.
      change (negb (truthy oversized) || negb (truthy (strip oversized)))
        with (blank oversized).
      assert (Hb : blank oversized = false)
        by (vm_compute; reflexivity).
      rewrite Hb.
      assert (Hp : startswith_any oversized url_prefixes = false)
        by reflexivity.
      rewrite Hp. cbn [andb].
      assert (He : encode_utf8 oversized = Some oversized)
        by (vm_compute; reflexivity).
      now rewrite He. }
    rewrite Hc. cbn [bind]. rewrite Hv. reflexivity.
  - vm_compute. reflexivity.
Qed.

(** C7 at the empty payload, which the field limits refuse. *)
Lemma request_model_skips_capacity_witness :
  check_data_field []
    = Raise (Exn PydanticValidationError
               (lit "String should have at least 1 character"))
  \/ as_validation_error (@validate_data ascii_digits_only [])
     = Raise (Exn PydanticValidationError
                (lit "String should have at least 1 character")).
Proof.
  apply (proj1 (proj2 (@request_model_skips_capacity ascii_digits_only))
           [] MEDIUM PNG H BINARY).
  reflexivity.
Defined.

End ModelFacts.

(** ** C3 and C4: failures of the renderer *)

Module RenderFacts.
Import Validators Generator.
Local Open Scope Z_scope.

Section WithLibraries.
Context `{UnicodeData} `{Libs}.

(** C3, as the code has it. When the PNG of a PDF request cannot be
    rendered, the [except] block is entered before [target_size] was
    assigned, and the fallback raises [UnboundLocalError] where it formats
    the size: no page is returned. *)
Theorem pdf_fallback_unbound (request png_request : QRCodeRequest)
    (e : exn) :
  png_copy request = Return png_request ->
  _generate_raster_qr png_request = Raise e ->
  _generate_pdf_qr request = Raise unbound_target_size.
Proof.
  unfold png_copy. intros Hcopy Hraster.
  unfold _generate_pdf_qr, pdf_try. rewrite Hcopy, Hraster. reflexivity.
Qed.


Lemma generate_qr_code_valid (start_time end_time : instant)
    (request : QRCodeRequest) :
  is_valid (validate_qr_data request.(data)) = true ->
  is_valid (validate_capacity request.(data) request.(error_correction))
    = true ->
  Generator.generate_qr_code start_time end_time request
  = match render request with
    | Return image_data => Return (image_data, end_time - start_time)
    | Raise e =>
        Raise (Exn ValueError
                 (lit "Failed to generate QR code: " ++ str_of_exn e))
    end.
Proof.
  intros Hdata Hcap. unfold Generator.generate_qr_code, render.
  rewrite Hdata, Hcap. cbn [negb].
  unfold try_except.
  destruct request.(format);
    match goal with
    | |- context [bind ?r _] => destruct r
    end; reflexivity.
Qed.

(** The service raises nothing but [ValueError]. *)
Lemma generate_qr_code_raises_ValueError (start_time end_time : instant)
    (request : QRCodeRequest) (e : exn) :
  Generator.generate_qr_code start_time end_time request = Raise e ->
  exists msg, e = Exn ValueError msg.
Proof.
  unfold Generator.generate_qr_code.
  destruct (negb (is_valid (validate_qr_data request.(data)))).
  { intros E. inversion E. eauto. }
  destruct (negb (is_valid (validate_capacity request.(data)
                              request.(error_correction)))).
  { intros E. inversion E. eauto. }
  unfold try_except.
  destruct request.(format);
    match goal with
    | |- context [bind ?r _] => destruct r
    end; cbn [bind]; intros E; inversion E; eauto.
Qed.

(** C4, as the code has it. When the payload passes both validations and
    the renderer raises [e], of whatever class, the service wraps [e] in a
    [ValueError], and the route answers 400 with the category
    [validation_error]. *)
Theorem generation_failure_is_400 (start_time end_time : instant)
    (request : QRCodeRequest) (e : exn) :
  is_valid (validate_qr_data request.(data)) = true ->
  is_valid (validate_capacity request.(data) request.(error_correction))
    = true ->
  render request = Raise e ->
  QrEndpoint.generate_qr_code start_time end_time request
    = Raise (HTTPException 400
               (QrEndpoint.error_detail "validation_error"
                  (lit "Failed to generate QR code: " ++ str_of_exn e)) [])
  /\ status_of (QrEndpoint.generate_qr_code start_time end_time request)
     = 400
  /\ error_category
       (QrEndpoint.generate_qr_code start_time end_time request)
     = Some (lit "validation_error").
Proof.
  intros Hdata Hcap Hrender.
  assert (E : QrEndpoint.generate_qr_code start_time end_time request
              = Raise (HTTPException 400
                  (QrEndpoint.error_detail "validation_error"
                     (lit "Failed to generate QR code: " ++ str_of_exn e))
                  [])).
  { unfold QrEndpoint.generate_qr_code, QrEndpoint.respond.
    rewrite (generate_qr_code_valid _ _ _ Hdata Hcap), Hrender.
    reflexivity. }
  rewrite E. repeat split.
Qed.

(** The route never answers 422: its [except RuntimeError] clause is
    never reached. *)
Lemma endpoint_never_422 (start_time end_time : instant)
    (request : QRCodeRequest) :
  status_of (QrEndpoint.generate_qr_code start_time end_time request) = 200
  \/ status_of (QrEndpoint.generate_qr_code start_time end_time request)
     = 400.
Proof.
  unfold QrEndpoint.generate_qr_code, QrEndpoint.respond.
  destruct (Generator.generate_qr_code start_time end_time request)
    as [[image_data ms] | e] eqn:Hgen; cbn [bind].
  - left. destruct request.(output_format); reflexivity.
  - right. apply generate_qr_code_raises_ValueError in Hgen as [msg ->].
    reflexivity.
Qed.

End WithLibraries.

(** C3 at a PDF request for "Hello, World!", with libraries in which the
    raster image cannot be built. *)
Lemma pdf_fallback_unbound_witness :
  @_generate_pdf_qr ascii_digits_only
     (raster_raises out_of_memory) (hello PDF)
  = Raise unbound_target_size.
Proof.
  apply (@pdf_fallback_unbound ascii_digits_only
           (raster_raises out_of_memory)
           (hello PDF) (hello PNG) out_of_memory).
  - vm_compute. reflexivity.
  - reflexivity.
Defined.


(** The same request through the route: 400, [validation_error]. *)
Example pdf_request_through_route :
  @QrEndpoint.generate_qr_code ascii_digits_only
     (raster_raises out_of_memory) 0 1000 (hello PDF)
  = Raise (HTTPException 400
      (QrEndpoint.error_detail "validation_error"
         (lit "Failed to generate QR code: cannot access local variable 'target_size' where it is not associated with a value"))
      []).
Proof. vm_compute. reflexivity. Qed.

(** With libraries in which only the embedding fails, the fallback page
    is returned. *)
Example pdf_request_embedding_fails :
  @_generate_pdf_qr ascii_digits_only
     (embedding_raises out_of_memory) (hello PDF)
  = Return (lit "%PDF-1.3").
Proof. vm_compute. reflexivity. Qed.

(** C4 at a PNG request for "Hello, World!" whose rendering raises a
    [RuntimeError]. *)
Lemma generation_failure_is_400_witness :
  @QrEndpoint.generate_qr_code ascii_digits_only
     (raster_raises out_of_memory) 0 1000 (hello PNG)
    = Raise (HTTPException 400
               (QrEndpoint.error_detail "validation_error"
                  (lit "Failed to generate QR code: "
                   ++ str_of_exn out_of_memory)) [])
  /\ status_of (@QrEndpoint.generate_qr_code ascii_digits_only
                  (raster_raises out_of_memory) 0 1000
                  (hello PNG))
     = 400
  /\ error_category
       (@QrEndpoint.generate_qr_code ascii_digits_only
          (raster_raises out_of_memory) 0 1000 (hello PNG))
     = Some (lit "validation_error").
Proof.
  apply (@generation_failure_is_400 ascii_digits_only
           (raster_raises out_of_memory) 0 1000 (hello PNG)
           out_of_memory).
  - vm_compute. reflexivity.
  - vm_compute. reflexivity.
  - reflexivity.
Defined.

End RenderFacts.

(** ** What the validators accept *)

Module ValidationFacts.
Import Validators Parameters.

(** *** Capacity *)

(** A payload that fits a level fits every level whose table value is at
    least as large: what level H holds, levels Q, M and L hold too. *)
Lemma fits_larger_capacity (data : str) (e e' : ErrorCorrectionLevel) :
  capacity_limits e <= capacity_limits e' ->
  validate_capacity data e = valid ->
  validate_capacity data e' = valid.
Proof.
  intros Hle. unfold validate_capacity.
  destruct (encode_utf8 data) as [bs | ]; [ | discriminate ].
  destruct (Nat.ltb_spec (capacity_limits e) (length bs));
    [ discriminate | ].
  intros _.
  destruct (Nat.ltb_spec (capacity_limits e') (length bs));
    [ lia | reflexivity ].
Qed.

Lemma fits_larger_capacity_witness :
  validate_capacity mixed_widths L = valid.
Proof.
  apply (fits_larger_capacity mixed_widths H L).
  - cbv [capacity_limits]. lia.
  - reflexivity.
Defined.

(** A character takes at most four bytes, so a payload of at most 178
    characters that can be encoded fits every level. *)
Lemma short_payload_fits (data : str) (bs : bytes)
    (e : ErrorCorrectionLevel) :
  encode_utf8 data = Some bs ->
  length data <= 178 ->
  validate_capacity data e = valid.
Proof.
  intros Hbs Hlen.
  apply (CapacityFacts.validate_capacity_within data e bs Hbs).
  pose proof (encode_utf8_length data bs Hbs) as [_ Hup].
  destruct e; cbv [capacity_limits]; lia.
Qed.

Lemma short_payload_fits_witness :
  validate_capacity mixed_widths H = valid.
Proof.
  apply (short_payload_fits mixed_widths mixed_widths_utf8 H).
  - reflexivity.
  - cbv [mixed_widths length]. lia.
Defined.

(** The bound is the best one: 179 four-byte characters exceed level H. *)
Example short_payload_bound_is_tight :
  validate_capacity (repeat 128640%N 179) H = capacity_exceeded H 716.
Proof. vm_compute. reflexivity. Qed.

(** *** Messages *)

Lemma sanitize_error_message_clean (message : str) :
  forallb not_angle (sanitize_error_message message) = true.
Proof.
  unfold sanitize_error_message. cbv zeta.
  rewrite SanitizeFacts.strip_angle_filter.
  destruct (Nat.ltb 200 (length (filter not_angle message))).
  - rewrite forallb_app. apply andb_true_iff. split; [ | reflexivity ].
    apply forallb_forall. intros c Hin.
    pose proof (forallb_filter not_angle message) as Hall.
    rewrite forallb_forall in Hall. apply Hall.
    rewrite <- (firstn_skipn 197 (filter not_angle message)).
    apply in_or_app. now left.
  - apply forallb_filter.
Qed.

Lemma sanitize_error_message_length (message : str) :
  length (sanitize_error_message message) <= 200.
Proof.
  unfold sanitize_error_message. cbv zeta.
  destruct (Nat.ltb_spec 200 (length (strip_angle message))) as [Hlt | Hle].
  - rewrite length_app.
    pose proof (firstn_le_length 197 (strip_angle message)).
    change (length (lit "...")) with 3. lia.
  - exact Hle.
Qed.

(** Sanitising twice is sanitising once. *)
Theorem sanitize_error_message_idempotent (message : str) :
  sanitize_error_message (sanitize_error_message message)
  = sanitize_error_message message.
Proof.
  pose proof (sanitize_error_message_clean message) as Hclean.
  pose proof (sanitize_error_message_length message) as Hlen.
  remember (sanitize_error_message message) as out.
  unfold sanitize_error_message. cbv zeta.
  rewrite SanitizeFacts.strip_angle_filter.
  rewrite (forallb_filter_id not_angle out Hclean).
  apply Nat.ltb_ge in Hlen. now rewrite Hlen.
Qed.

(** *** Blank payloads *)

Lemma lstrip_nil (s : str) : lstrip s = [] <-> forallb isspace s = true.
Proof.
  induction s as [ | c s IH ]; simpl; [ tauto | ].
  destruct (isspace c); simpl; [ exact IH | ].
  split; discriminate.
Qed.

Lemma lstrip_head (s : str) (c : codepoint) (t : str) :
  lstrip s = c :: t -> isspace c = false.
Proof.
  induction s as [ | d s IH ]; simpl; [ discriminate | ].
  destruct (isspace d) eqn:Ed; [ exact IH | ].
  intros E. inversion E; subst. exact Ed.
Qed.

Lemma strip_nil (s : str) : strip s = [] <-> forallb isspace s = true.
Proof.
  unfold strip, rstrip. split.
  - intros E. apply (f_equal (@rev codepoint)) in E.
    rewrite rev_involutive in E. simpl in E.
    apply lstrip_nil in E. rewrite forallb_forall in E.
    destruct (lstrip s) as [ | c t ] eqn:El.
    + now apply lstrip_nil.
    + pose proof (lstrip_head s c t El) as Hc.
      assert (Hs : isspace c = true).
      { apply E. apply -> in_rev. now left. }
      congruence.
  - intros E. apply lstrip_nil in E. now rewrite E.
Qed.

Lemma blank_spec (data : str) :
  blank data = true <-> forallb isspace data = true.
Proof.
  unfold blank. destruct data as [ | c s ]; [ simpl; tauto | ].
  cbn [truthy negb orb]. rewrite <- strip_nil.
  destruct (strip (c :: s)); simpl; split; congruence.
Qed.

(** [validate_qr_data] answers "Data cannot be empty" exactly for the
    payloads that consist of whitespace only (the empty one among them),
    whatever their length. *)
Theorem empty_means_whitespace_only `{UnicodeData} (data : str) :
  validate_qr_data data = invalid "Data cannot be empty"
  <-> forallb isspace data = true.
Proof.
  rewrite <- blank_spec, UrlFacts.validate_qr_data_unfold.
  destruct (blank data); [ tauto | ].
  split; [ | discriminate ].
  destruct (Nat.ltb 2000 (length data)).
  { intros E. apply (f_equal message) in E. vm_compute in E.
    discriminate. }
  destruct (startswith_any data url_prefixes && negb (is_valid_url data)).
  { intros E. apply (f_equal message) in E. vm_compute in E.
    discriminate. }
  destruct (encode_utf8 data);
    intros E; apply (f_equal is_valid) in E + apply (f_equal message) in E;
    vm_compute in E; discriminate.
Qed.

(** *** The generation parameters *)

Lemma size_values (size : str) :
  str_in size valid_sizes = true <-> exists s, size = QRSize_value s.
Proof.
  unfold str_in, valid_sizes. cbn [existsb].
  rewrite !orb_true_iff, !str_eqb_eq. split.
  - intros [E | [E | [E | E]]]; try discriminate; subst;
      [ exists SMALL | exists MEDIUM | exists LARGE ]; reflexivity.
  - intros [[] ->]; cbn [QRSize_value]; tauto.
Qed.

Lemma format_values (format : str) :
  str_in format valid_formats = true
  <-> exists f, format = OutputFormat_value f.
Proof.
  unfold str_in, valid_formats. cbn [existsb].
  rewrite !orb_true_iff, !str_eqb_eq. split.
  - intros [E | [E | [E | [E | E]]]]; try discriminate; subst;
      [ exists PNG | exists SVG | exists JPEG | exists PDF ]; reflexivity.
  - intros [[] ->]; cbn [OutputFormat_value]; tauto.
Qed.

Lemma level_values (level : str) :
  str_in level valid_error_levels = true
  <-> exists e, level = ErrorCorrectionLevel_value e.
Proof.
  unfold str_in, valid_error_levels. cbn [existsb].
  rewrite !orb_true_iff, !str_eqb_eq. split.
  - intros [E | [E | [E | [E | E]]]]; try discriminate; subst;
      [ exists L | exists M | exists Q | exists H ]; reflexivity.
  - intros [[] ->]; cbn [ErrorCorrectionLevel_value]; tauto.
Qed.

(** [validate_generation_parameters] accepts exactly the triples of
    values of the enumerations [QRSize], [OutputFormat] and
    [ErrorCorrectionLevel] of the request model, case included; and it
    reports the first parameter that is wrong, in the order size, format,
    level, quoting the value it was given. *)
Theorem validate_generation_parameters_spec (size format level : str) :
  (validate_generation_parameters size format level = valid
   <-> (exists s, size = QRSize_value s)
       /\ (exists f, format = OutputFormat_value f)
       /\ (exists e, level = ErrorCorrectionLevel_value e))
  /\ ((forall s, size <> QRSize_value s) ->
      validate_generation_parameters size format level
      = {| is_valid := false;
           message := lit "Invalid size '" ++ size
                      ++ lit "'. Valid sizes: small, medium, large" |})
  /\ (forall s, (forall f, format <> OutputFormat_value f) ->
      validate_generation_parameters (QRSize_value s) format level
      = {| is_valid := false;
           message := lit "Invalid format '" ++ format
                      ++ lit "'. Valid formats: png, svg, jpeg, pdf" |})
  /\ (forall s f, (forall e, level <> ErrorCorrectionLevel_value e) ->
      validate_generation_parameters
        (QRSize_value s) (OutputFormat_value f) level
      = {| is_valid := false;
           message := lit "Invalid error correction '" ++ level
                      ++ lit "'. Valid levels: L, M, Q, H" |}).
Proof.
  assert (Hno : forall (A : Type) (P : A -> Prop),
             (forall a, ~ P a) -> ~ exists a, P a).
  { intros A P Hall [a Ha]. exact (Hall a Ha). }
  split; [ split | split; [ | split ] ].
  - unfold validate_generation_parameters.
    destruct (str_in size valid_sizes) eqn:Es; [ | discriminate ].
    destruct (str_in format valid_formats) eqn:Ef; [ | discriminate ].
    destruct (str_in level valid_error_levels) eqn:El; [ | discriminate ].
    intros _.
    apply size_values in Es. apply format_values in Ef.
    apply level_values in El. auto.
  - intros (Es & Ef & El).
    apply size_values in Es. apply format_values in Ef.
    apply level_values in El.
    unfold validate_generation_parameters. now rewrite Es, Ef, El.
  - intros Hs. unfold validate_generation_parameters.
    destruct (str_in size valid_sizes) eqn:Es; [ | reflexivity ].
    apply size_values in Es. now apply Hno in Hs.
  - intros s Hf. unfold validate_generation_parameters.
    replace (str_in (QRSize_value s) valid_sizes) with true
      by (symmetry; apply size_values; eauto).
    destruct (str_in format valid_formats) eqn:Ef; [ | reflexivity ].
    apply format_values in Ef. now apply Hno in Hf.
  - intros s f Hl. unfold validate_generation_parameters.
    replace (str_in (QRSize_value s) valid_sizes) with true
      by (symmetry; apply size_values; eauto).
    replace (str_in (OutputFormat_value f) valid_formats) with true
      by (symmetry; apply format_values; eauto).
    destruct (str_in level valid_error_levels) eqn:El; [ | reflexivity ].
    apply level_values in El. now apply Hno in Hl.
Qed.

(** The enumeration values pass, upper-case spellings of them do not. *)
Example parameters_are_case_sensitive :
  validate_generation_parameters (lit "medium") (lit "png") (lit "M")
    = valid
  /\ message (validate_generation_parameters
                (lit "medium") (lit "PNG") (lit "M"))
     = lit "Invalid format 'PNG'. Valid formats: png, svg, jpeg, pdf".
Proof. split; vm_compute; reflexivity. Qed.

End ValidationFacts.

(** ** URL payloads and whitespace *)

Module WhitespaceFacts.
Import Validators.
Local Open Scope N_scope.

(** The words of a pattern are made of characters of its classes. *)
Lemma matches_within (P : codepoint -> bool) (r : regex) (w : str) :
  matches r w -> syms_within P r -> forallb P w = true.
Proof.
  induction 1 as [ | p c Hc | r s u v _ IHu _ IHv | r s u _ IH | r s u _ IH
                   | r | r u v _ IHu _ IHv | hi r
                   | lo hi r u v _ IHu _ IHv ];
    cbn [syms_within]; intros Hin.
  - reflexivity.
  - cbn [forallb]. now rewrite (Hin c Hc).
  - rewrite forallb_app, IHu, IHv; tauto.
  - apply IH, Hin.
  - apply IH, Hin.
  - reflexivity.
  - rewrite forallb_app, IHu, IHv; auto.
  - reflexivity.
  - rewrite forallb_app, IHu, IHv; auto.
Qed.

Lemma isspace_spec (c : codepoint) :
  isspace c = true ->
  9 <= c <= 13 \/ 28 <= c <= 32 \/ c = 133 \/ c = 160 \/ c = 5760
  \/ 8192 <= c <= 8202 \/ c = 8232 \/ c = 8233 \/ c = 8239 \/ c = 8287
  \/ c = 12288.
Proof.
  unfold isspace.
  rewrite !orb_true_iff, !andb_true_iff, !N.leb_le, !N.eqb_eq. tauto.
Qed.

(** Case folding leaves whitespace alone. *)
Lemma fold_case_space (c : codepoint) :
  isspace c = true -> fold_case c = c.
Proof.
  intros Hc. apply isspace_spec in Hc. unfold fold_case.
  destruct (N.leb_spec 65 c); destruct (N.leb_spec c 90); cbn [andb];
    try lia;
    destruct (N.eqb_spec c 304); destruct (N.eqb_spec c 305); cbn [orb];
    try lia;
    destruct (N.eqb_spec c 383); try lia;
    destruct (N.eqb_spec c 8490); try lia; reflexivity.
Qed.

Lemma chr_i_no_space (p c : codepoint) :
  isspace (fold_case p) = false ->
  (fold_case c =? fold_case p) = true -> cls_S c = true.
Proof.
  intros Hp Hc. apply N.eqb_eq in Hc. unfold cls_S.
  destruct (isspace c) eqn:Ec; [ | reflexivity ].
  rewrite (fold_case_space c Ec) in Hc. congruence.
Qed.

Lemma lit_i_no_space (s : str) :
  forallb (fun p => negb (isspace (fold_case p))) s = true ->
  syms_within cls_S (lit_i s).
Proof.
  induction s as [ | p s IH ]; [ exact (fun _ => I) | ].
  cbn [forallb]. intros E. apply andb_true_iff in E as [Hp Hs].
  apply negb_true_iff in Hp.
  destruct s as [ | q s ].
  - cbn [lit_i syms_within chr_i]. intros c. now apply chr_i_no_space.
  - change (lit_i (p :: q :: s)) with (Cat (chr_i p) (lit_i (q :: s))).
    cbn [syms_within chr_i]. split; [ | exact (IH Hs) ].
    intros c. now apply chr_i_no_space.
Qed.

Lemma cls_09_no_space (c : codepoint) : cls_09 c = true -> cls_S c = true.
Proof.
  unfold cls_09, cls_S. rewrite andb_true_iff, !N.leb_le. intros Hc.
  destruct (isspace c) eqn:Ec; [ | reflexivity ].
  apply isspace_spec in Ec. lia.
Qed.

Lemma cls_alpha_no_space (c : codepoint) :
  cls_alpha c = true -> cls_S c = true.
Proof.
  unfold cls_alpha, cls_S. cbv zeta.
  rewrite andb_true_iff, !N.leb_le. intros Hc.
  destruct (isspace c) eqn:Ec; [ | reflexivity ].
  rewrite (fold_case_space c Ec) in Hc.
  apply isspace_spec in Ec. lia.
Qed.

Lemma cls_alnum_no_space (c : codepoint) :
  cls_alnum c = true -> cls_S c = true.
Proof.
  unfold cls_alnum. intros E. apply orb_true_iff in E as [E | E].
  - now apply cls_alpha_no_space.
  - now apply cls_09_no_space.
Qed.

Lemma cls_alnum_dash_no_space (c : codepoint) :
  cls_alnum_dash c = true -> cls_S c = true.
Proof.
  unfold cls_alnum_dash. intros E. apply orb_true_iff in E as [E | E].
  - now apply cls_alnum_no_space.
  - apply N.eqb_eq in E. subst c. reflexivity.
Qed.

Section WithTables.
Context `{UnicodeData}.
Hypothesis table : digits_are_not_spaces.

Lemma cls_d_no_space (c : codepoint) : cls_d c = true -> cls_S c = true.
Proof.
  unfold cls_d. destruct (c <? 128).
  - apply cls_09_no_space.
  - intros E. unfold cls_S. now rewrite (table c E).
Qed.

(** No character class of the URL pattern contains a whitespace
    character. *)
Lemma url_pattern_no_space : syms_within cls_S url_pattern.
Proof.
  unfold url_pattern, re_scheme, re_host, re_domain, re_label, re_ip,
    re_octet, re_port, re_tail, opt, plus.
  cbn [syms_within chr_i].
  repeat match goal with |- _ /\ _ => split end;
    try (apply lit_i_no_space; reflexivity);
    try (intros c; apply chr_i_no_space; reflexivity);
    try exact cls_alnum_no_space;
    try exact cls_alnum_dash_no_space;
    try exact cls_alpha_no_space;
    try exact cls_d_no_space;
    try (intros c Hc; exact Hc).
  intros c Hc. apply orb_true_iff in Hc as [Hc | Hc];
    apply N.eqb_eq in Hc; subst c; reflexivity.
Qed.

(** An accepted URL contains no whitespace, a final newline apart. *)
Lemma is_valid_url_no_space (url : str) :
  is_valid_url url = true ->
  forallb cls_S url = true
  \/ exists u, url = u ++ [10] /\ forallb cls_S u = true.
Proof.
  intros E. apply ReFacts.match_dollar_spec in E as [Hm | (u & -> & Hm)].
  - left. exact (matches_within cls_S _ _ Hm url_pattern_no_space).
  - right. exists u. split; [ reflexivity | ].
    exact (matches_within cls_S _ _ Hm url_pattern_no_space).
Qed.

(** A payload that starts with a URL scheme and contains a whitespace
    character other than a newline (a blank, a tab, a no-break space) is
    refused by [is_valid_url], and so by [validate_qr_data]: with the
    maximum-length error when it has more than 2000 characters, with
    "Invalid URL format" otherwise. *)
Theorem url_with_whitespace_rejected (data : str) (c : codepoint) :
  startswith_any data url_prefixes = true ->
  In c data -> isspace c = true -> c <> 10 ->
  is_valid_url data = false
  /\ (validate_qr_data data = invalid "Invalid URL format"
      \/ validate_qr_data data
         = invalid "Data exceeds maximum length of 2000 characters").
Proof.
  intros Hprefix Hin Hc Hnl.
  assert (Hurl : is_valid_url data = false).
  { destruct (is_valid_url data) eqn:E; [ exfalso | reflexivity ].
    assert (Hno : forall u, forallb cls_S u = true -> ~ In c u).
    { intros u Hu Hcu. rewrite forallb_forall in Hu.
      specialize (Hu c Hcu). unfold cls_S in Hu. rewrite Hc in Hu.
      discriminate. }
    apply is_valid_url_no_space in E as [Hall | (u & -> & Hall)].
    - exact (Hno data Hall Hin).
    - apply in_app_or in Hin as [Hin | [Heq | []]].
      + exact (Hno u Hall Hin).
      + now apply Hnl. }
  split; [ exact Hurl | ].
  rewrite UrlFacts.validate_qr_data_unfold.
  rewrite (UrlFacts.url_prefix_not_blank data Hprefix), Hprefix, Hurl.
  destruct (Nat.ltb 2000 (length data)); auto.
Qed.

End WithTables.

Lemma url_with_whitespace_rejected_witness :
  @is_valid_url ascii_digits_only spaced_url = false
  /\ (@validate_qr_data ascii_digits_only spaced_url
      = invalid "Invalid URL format"
      \/ @validate_qr_data ascii_digits_only spaced_url
         = invalid "Data exceeds maximum length of 2000 characters").
Proof.
  apply (@url_with_whitespace_rejected ascii_digits_only
           (fun c E => False_ind _ (Bool.diff_false_true E)) spaced_url 32).
  - reflexivity.
  - unfold spaced_url. apply in_map_iff. exists " "%char.
    split; [ reflexivity | ]. simpl. tauto.
  - reflexivity.
  - discriminate.
Defined.

End WhitespaceFacts.

(** ** The request model and the service *)

Module AgreementFacts.
Import Validators.

Lemma request_init_cases `{UnicodeData} (d : str)
    (s : QRSize) (f : OutputFormat) (e : ErrorCorrectionLevel)
    (o : OutputEncoding) :
  (is_valid (validate_qr_data d) = true
   /\ QRCodeRequest_init d s f e o
      = Return {| data := d; size := s; format := f;
                  error_correction := e; output_format := o |})
  \/ (is_valid (validate_qr_data d) = false
      /\ exists msg,
           QRCodeRequest_init d s f e o
           = Raise (Exn PydanticValidationError msg)).
Proof.
  rewrite UrlFacts.validate_qr_data_unfold.
  unfold QRCodeRequest_init, check_data_field, validate_data.
  destruct d as [ | c d ].
  { right. split; [ reflexivity | ]. cbn [length Nat.ltb Nat.leb bind].
    eexists. reflexivity. }
  change (Nat.ltb (length (c :: d)) 1) with false. cbv iota.
  destruct (Nat.ltb 2000 (length (c :: d))).
  { right. split; [ destruct (blank (c :: d)); reflexivity | ].
    cbn [bind]. eexists. reflexivity. }
  cbn [bind].
  change (negb (truthy (c :: d)) || negb (truthy (strip (c :: d))))
    with (blank (c :: d)).
  change (match_dollar url_pattern (c :: d)) with (is_valid_url (c :: d)).
  destruct (blank (c :: d)).
  { right. split; [ reflexivity | ]. cbn [as_validation_error bind].
    eexists. reflexivity. }
  destruct (startswith_any (c :: d) url_prefixes
            && negb (is_valid_url (c :: d))).
  { right. split; [ reflexivity | ]. cbn [as_validation_error bind].
    eexists. reflexivity. }
  destruct (encode_utf8 (c :: d)) as [bs | ].
  - left. split; reflexivity.
  - right. split; [ reflexivity | ]. cbn [as_validation_error bind].
    eexists. reflexivity.
Qed.

(** The request model and the service accept the same payloads: a
    request can be built from a payload exactly when [validate_qr_data]
    answers valid for it, the request then carries the payload unchanged,
    and otherwise the construction fails with a validation error. *)
Theorem model_accepts_what_service_accepts `{UnicodeData} (d : str)
    (s : QRSize) (f : OutputFormat) (e : ErrorCorrectionLevel)
    (o : OutputEncoding) :
  ((exists request, QRCodeRequest_init d s f e o = Return request)
   <-> is_valid (validate_qr_data d) = true)
  /\ (forall request,
        QRCodeRequest_init d s f e o = Return request ->
        request = {| data := d; size := s; format := f;
                     error_correction := e; output_format := o |})
  /\ ((exists msg, QRCodeRequest_init d s f e o
                   = Raise (Exn PydanticValidationError msg))
      <-> is_valid (validate_qr_data d) = false).
Proof.
  destruct (request_init_cases d s f e o)
    as [[Hv E] | [Hv [msg E]]]; rewrite E, Hv.
  - split; [ | split ].
    + split; [ reflexivity | eauto ].
    + intros request Er. now inversion Er.
    + split; [ intros [msg Em]; discriminate | discriminate ].
  - split; [ | split ].
    + split; [ intros [request Er]; discriminate | discriminate ].
    + intros request Er. discriminate.
    + split; [ reflexivity | eauto ].
Qed.

End AgreementFacts.

(** ** Tokens: scopes, foreign tokens, and the token route *)

Module GrantFacts.
Import AuthService.
Local Open Scope Z_scope.

Lemma has_permission_spec (p : TokenPayload) (scope : str) :
  has_permission p scope = true <-> In scope (tp_scopes p).
Proof.
  unfold has_permission. rewrite existsb_exists. split.
  - intros (x & Hin & E). apply str_eqb_eq in E. now subst.
  - intros Hin. exists scope. split; [ exact Hin | apply str_eqb_refl ].
Qed.

Section WithCodec.
Context `{Codec}.
Hypothesis codec_reads_back : reads_back.
Variable settings : Settings.


(** A token of [create_access_token] that [verify_token] accepts names
    the user it was issued to, and [has_permission] grants on it exactly
    the scopes of that user. *)
Theorem verified_token_grants_user_scopes (user : User) (host : Host)
    (now : instant) (expires_delta : option timedelta) (t : instant)
    (p : TokenPayload) :
  verify_token settings t
    (create_access_token settings host now user expires_delta) = Return p ->
  sub p = id user
  /\ forall scope, has_permission p scope = true <-> In scope (scopes user).
Proof.
  rewrite TokenFacts.create_access_token_payload. unfold verify_token.
  rewrite (TokenFacts.decode_encode codec_reads_back).
  cbn [TokenPayload_dict c_exp].
  destruct (exp (issued user host now (effective_ttl settings expires_delta))
            <? timegm_utc t); [ discriminate | ].
  cbn. intros E. inversion E; subst p. cbn [sub]. split; [ reflexivity | ].
  intros scope. apply has_permission_spec.
Qed.


End WithCodec.


Example token_expired_on_eastern_host :
  @verify_token toy_codec default_settings (t0 + minutes 1)
    (@create_access_token toy_codec default_settings
       {| utcoffset := 3600 |} t0 alice None)
  = Raise expired_error.
Proof. vm_compute. reflexivity. Qed.

Lemma verified_token_grants_user_scopes_witness :
  sub (issued alice utc_host t0 (minutes 30)) = id alice
  /\ forall scope,
       has_permission (issued alice utc_host t0 (minutes 30)) scope = true
       <-> In scope (scopes alice).
Proof.
  exact (@verified_token_grants_user_scopes toy_codec
           SampleFacts.toy_codec_reads_back default_settings alice utc_host
           t0 None t0 (issued alice utc_host t0 (minutes 30)) eq_refl).
Defined.


End GrantFacts.

Module TokenEndpointFacts.
Import AuthService TokenEndpoint.
Local Open Scope Z_scope.

Section WithCodec.
Context `{Codec}.
Variable settings : Settings.
Variable credentials : Credentials.
Variable sign_failure : str -> str -> option exn.

Lemma create_access_token_cases (now1 now2 : instant)
    (request : TokenRequest) :
  create_access_token settings credentials sign_failure now1 now2 request
  = if str_eqb (auth_username credentials) (username request)
       && str_eqb (auth_password credentials) (password request)
    then
      match sign_failure (secret_key settings) (algorithm settings) with
      | Some _ => Raise token_generation_failed
      | None =>
          Return
            {| access_token :=
                 encode
                   {| c_sub := Some (username request);
                      c_exp :=
                        Some (timegm_utc
                                (now1 + minutes
                                          (access_token_expire_minutes
                                             settings)));
                      c_iat := Some (timegm_utc now2);
                      c_scopes := Some [lit "qr:generate"] |}
                   (secret_key settings) (algorithm settings);
               token_type := lit "bearer";
               expires_in := access_token_expire_minutes settings * 60 |}
      end
    else Raise invalid_credentials.
Proof.
  unfold create_access_token, get_valid_credentials. cbv zeta.
  cbn [dict_get].
  destruct (str_eqb (auth_username credentials) (username request));
    [ | reflexivity ].
  destruct (str_eqb (auth_password credentials) (password request));
    [ | reflexivity ].
  cbn [negb andb].
  destruct (sign_failure (secret_key settings) (algorithm settings));
    reflexivity.
Qed.

(** The route issues a token exactly for the configured pair of user name
    and password, compared as they are; any other pair gets the same 401,
    whether the name or the password is the wrong one.  The response
    announces a lifetime of sixty times the configured minutes.  When the
    token library cannot sign, the configured pair gets a 500 that does
    not show the library's error. *)
Theorem token_only_for_configured_pair (now1 now2 : instant)
    (request : TokenRequest) :
  (username request = auth_username credentials
   /\ password request = auth_password credentials ->
   match sign_failure (secret_key settings) (algorithm settings) with
   | None =>
       exists token,
         create_access_token settings credentials sign_failure
           now1 now2 request
         = Return {| access_token := token;
                     token_type := lit "bearer";
                     expires_in :=
                       access_token_expire_minutes settings * 60 |}
   | Some _ =>
       create_access_token settings credentials sign_failure
         now1 now2 request
       = Raise token_generation_failed
   end)
  /\ (username request <> auth_username credentials
      \/ password request <> auth_password credentials ->
      create_access_token settings credentials sign_failure
        now1 now2 request
      = Raise invalid_credentials).
Proof.
  rewrite create_access_token_cases. split.
  - intros [Eu Ep]. rewrite Eu, Ep, !str_eqb_refl. cbn [andb].
    destruct (sign_failure (secret_key settings) (algorithm settings));
      [ reflexivity | ].
    eexists. reflexivity.
  - intros Hwrong.
    destruct (str_eqb (auth_username credentials) (username request))
      eqn:Eu; [ | reflexivity ].
    destruct (str_eqb (auth_password credentials) (password request))
      eqn:Ep; [ | reflexivity ].
    apply str_eqb_eq in Eu, Ep. exfalso.
    destruct Hwrong as [Hn | Hn]; apply Hn; congruence.
Qed.

Hypothesis codec_reads_back : reads_back.

Lemma timegm_utc_minutes (now : instant) (m : Z) :
  timegm_utc (now + minutes m) = timegm_utc now + m * 60.
Proof.
  unfold timegm_utc, minutes. apply Z.div_add. discriminate.
Qed.

(** The token of the route lives as long as the response says, counted
    from the whole second of the request and whatever the time zone of the
    host: [verify_token] returns its payload (the user name, the expiry,
    the scope [qr:generate]) at every time up to the end of second
    [now + expires_in], and refuses it as expired afterwards. *)
Theorem endpoint_token_lifetime (now1 now2 t : instant)
    (request : TokenRequest) (response : TokenResponse) :
  create_access_token settings credentials sign_failure now1 now2 request
    = Return response ->
  (timegm_utc t <= timegm_utc now1 + expires_in response ->
   verify_token settings t (access_token response)
   = Return {| sub := username request;
               exp := timegm_utc now1 + expires_in response;
               iat := timegm_utc now2;
               tp_scopes := [lit "qr:generate"] |})
  /\ (timegm_utc now1 + expires_in response < timegm_utc t ->
      verify_token settings t (access_token response)
      = Raise expired_error).
Proof.
  rewrite create_access_token_cases.
  destruct (str_eqb (auth_username credentials) (username request)
            && str_eqb (auth_password credentials) (password request));
    [ | discriminate ].
  destruct (sign_failure (secret_key settings) (algorithm settings));
    [ discriminate | ].
  intros E. inversion E; subst response; clear E.
  cbn [access_token expires_in].
  unfold verify_token.
  rewrite (TokenFacts.decode_encode codec_reads_back). cbn [c_exp].
  rewrite timegm_utc_minutes.
  split; intros Ht.
  - apply Z.ltb_ge in Ht. rewrite Ht. reflexivity.
  - apply Z.ltb_lt in Ht. rewrite Ht. reflexivity.
Qed.

End WithCodec.

Lemma endpoint_token_lifetime_witness :
  ((timegm_utc (t0 + minutes 30) <= timegm_utc t0 + 1800 ->
    @verify_token toy_codec default_settings (t0 + minutes 30) admin_token
    = Return {| sub := lit "admin";
                exp := timegm_utc t0 + 1800;
                iat := timegm_utc t0;
                tp_scopes := [lit "qr:generate"] |})
   /\ (timegm_utc t0 + 1800 < timegm_utc (t0 + minutes 30) ->
       @verify_token toy_codec default_settings (t0 + minutes 30)
         admin_token
       = Raise expired_error)).
Proof.
  exact (@endpoint_token_lifetime toy_codec default_settings
           default_credentials always_signs
           SampleFacts.toy_codec_reads_back
           t0 t0 (t0 + minutes 30) admin_login admin_response eq_refl).
Defined.

(** The route at the defaults: the configured pair gets a token, a wrong
    password and an unknown user get the same refusal, and a library that
    cannot sign gives a 500 to the configured pair only. *)
Example token_route_samples :
  @create_access_token toy_codec default_settings default_credentials
    always_signs t0 t0 admin_login = Return admin_response
  /\ @create_access_token toy_codec default_settings default_credentials
       always_signs t0 t0
       {| username := lit "admin"; password := lit "guess" |}
     = Raise invalid_credentials
  /\ @create_access_token toy_codec default_settings default_credentials
       always_signs t0 t0
       {| username := lit "Admin";
          password := lit "secure_password_123" |}
     = Raise invalid_credentials
  /\ @create_access_token toy_codec default_settings default_credentials
       never_signs t0 t0 admin_login
     = Raise token_generation_failed
  /\ @create_access_token toy_codec default_settings default_credentials
       never_signs t0 t0
       {| username := lit "admin"; password := lit "guess" |}
     = Raise invalid_credentials.
Proof. repeat split; vm_compute; reflexivity. Qed.

End TokenEndpointFacts.

(** ** The middleware: what passes, what is refused, what is masked *)

Module BearerFacts.
Import AuthService Middleware.
Local Open Scope Z_scope.

Lemma refusal_is_HTTPException (e : exn) :
  In e refusals -> is_HTTPException e = true.
Proof.
  intros [<- | [<- | [<- | [<- | []]]]]; reflexivity.
Qed.

Lemma refusal_status (e : exn) :
  In e refusals ->
  exists msg, e = HTTPException 401 (DetailStr msg)
                    [(lit "WWW-Authenticate", lit "Bearer")].
Proof.
  intros [<- | [<- | [<- | [<- | []]]]]; eexists; reflexivity.
Qed.

Lemma split_on_word (sep : codepoint) (w rest : str) :
  ~ In sep w -> split_on sep (w ++ sep :: rest) = w :: split_on sep rest.
Proof.
  induction w as [ | c w IH ]; intros Hw.
  - cbn [app split_on]. unfold cp_eqb. now rewrite N.eqb_refl.
  - cbn [app split_on].
    destruct (N.eqb_spec c sep) as [-> | Hc].
    + exfalso. apply Hw. now left.
    + unfold cp_eqb. destruct (N.eqb_spec c sep); [ contradiction | ].
      rewrite IH; [ reflexivity | ].
      intros Hin. apply Hw. now right.
Qed.

Lemma split_on_one_word (sep : codepoint) (w : str) :
  ~ In sep w -> split_on sep w = [w].
Proof.
  induction w as [ | c w IH ]; intros Hw; [ reflexivity | ].
  cbn [split_on]. unfold cp_eqb.
  destruct (N.eqb_spec c sep) as [-> | Hc].
  - exfalso. apply Hw. now left.
  - rewrite IH; [ reflexivity | ].
    intros Hin. apply Hw. now right.
Qed.

Lemma bearer_words (x : str) :
  nth_error (split_on 32%N (lit "Bearer " ++ x)) 1
  = hd_error (split_on 32%N x).
Proof.
  change (split_on 32%N (lit "Bearer " ++ x))
    with (lit "Bearer" :: split_on 32%N x).
  cbn [nth_error]. destruct (split_on 32%N x); reflexivity.
Qed.

Section WithCodec.
Context `{Codec}.
Variable settings : Settings.

(** [authenticate] with the header read and the token cut out. *)
Lemma authenticate_bearer (now : instant) (request : Request)
    (x token : str) :
  headers_get (lit "Authorization") request.(headers)
    = Some (lit "Bearer " ++ x) ->
  hd_error (split_on 32%N x) = Some token ->
  authenticate settings now request
  = match decode now token (secret_key settings) [algorithm settings] with
    | Return claims =>
        match c_exp claims with
        | Some e =>
            if negb (e =? 0) && (e * second <? now)
            then Raise (unauthorized "Token has expired")
            else Return (authenticated request claims)
        | None => Return (authenticated request claims)
        end
    | Raise _ => Raise (unauthorized "Invalid authentication token")
    end.
Proof.
  intros Hget Htoken. unfold authenticate. rewrite Hget.
  change (truthy (lit "Bearer " ++ x)) with true.
  change (startswith (lit "Bearer " ++ x) (lit "Bearer ")) with true.
  cbn [negb]. rewrite bearer_words, Htoken.
  destruct (decode now token (secret_key settings) [algorithm settings])
    as [claims | e] eqn:Ed; cbn [bind try_except].
  - unfold authenticated. cbn [token_exp].
    destruct (c_exp claims) as [e | ]; [ | reflexivity ].
    destruct (negb (e =? 0) && (e * second <? now)); reflexivity.
  - now rewrite (AccessFacts.decode_raises_JWTError _ _ _ _ _ Ed).
Qed.

(** Every outcome of [authenticate]: one of the four refusals, or the
    request with the claims of a token that the library accepted. *)
Lemma authenticate_cases (now : instant) (request : Request) :
  (exists e, In e refusals /\ authenticate settings now request = Raise e)
  \/ (exists authorization token claims,
        headers_get (lit "Authorization") request.(headers)
          = Some authorization
        /\ startswith authorization (lit "Bearer ") = true
        /\ nth_error (split_on 32%N authorization) 1 = Some token
        /\ decode now token (secret_key settings) [algorithm settings]
           = Return claims
        /\ (forall e, c_exp claims = Some e -> e = 0 \/ now <= e * second)
        /\ authenticate settings now request
           = Return (authenticated request claims)).
Proof.
  unfold authenticate.
  destruct (headers_get (lit "Authorization") request.(headers))
    as [authorization | ] eqn:Hget.
  2: { left. eexists. split; [ | reflexivity ]. cbn. tauto. }
  destruct (truthy authorization); cbn [negb].
  2: { left. eexists. split; [ | reflexivity ]. cbn. tauto. }
  destruct (startswith authorization (lit "Bearer ")) eqn:Hstart;
    cbn [negb].
  2: { left. eexists. split; [ | reflexivity ]. cbn. tauto. }
  destruct (AccessFacts.bearer_has_token authorization Hstart)
    as (_ & token & Htoken).
  rewrite Htoken.
  destruct (decode now token (secret_key settings) [algorithm settings])
    as [claims | e] eqn:Ed; cbn [bind try_except].
  - cbn [token_exp]. destruct (c_exp claims) as [e | ] eqn:Ee.
    + destruct (Z.eqb_spec e 0) as [He | He]; cbn [negb andb].
      * right. exists authorization, token, claims.
        repeat (split; [ assumption || reflexivity | ]).
        split; [ | unfold authenticated; now rewrite Ee ].
        intros e' E. rewrite Ee in E. inversion E; subst. now left.
      * destruct (Z.ltb_spec (e * second) now) as [Hlt | Hle].
        -- left. eexists. split; [ | reflexivity ]. cbn. tauto.
        -- right. exists authorization, token, claims.
           repeat (split; [ assumption || reflexivity | ]).
           split; [ | unfold authenticated; now rewrite Ee ].
           intros e' E. rewrite Ee in E. inversion E; subst. now right.
    + right. exists authorization, token, claims.
      repeat (split; [ assumption || reflexivity | ]).
      split; [ | unfold authenticated; now rewrite Ee ].
      intros e' E. rewrite Ee in E. discriminate.
  - rewrite (AccessFacts.decode_raises_JWTError _ _ _ _ _ Ed).
    left. eexists. split; [ | reflexivity ]. cbn. tauto.
Qed.

(** The middleware hands a request on only after the token library has
    accepted its token: the header starts with [Bearer ], the token is
    its second word, [jwt.decode] returned the claims under the
    configured key and algorithm, the [exp] claim (when there is one that
    is not zero) is not behind the clock, and the request handed on is the
    one received with [sub] and [exp] written to its state. *)
Theorem handler_needs_accepted_token (now : instant)
    (request request' : Request) :
  authenticate settings now request = Return request' ->
  exists authorization token claims,
    headers_get (lit "Authorization") request.(headers) = Some authorization
    /\ startswith authorization (lit "Bearer ") = true
    /\ nth_error (split_on 32%N authorization) 1 = Some token
    /\ decode now token (secret_key settings) [algorithm settings]
       = Return claims
    /\ (forall e, c_exp claims = Some e -> e = 0 \/ now <= e * second)
    /\ request' = authenticated request claims.
Proof.
  intros E.
  destruct (authenticate_cases now request)
    as [(e & _ & E') | (authorization & token & claims & H1 & H2 & H3
                         & H4 & H5 & E')];
    rewrite E' in E; [ discriminate | ].
  inversion E; subst request'.
  exists authorization, token, claims. auto 10.
Qed.

(** When authentication fails on a protected path, the middleware
    answers by itself, with one of its four refusals (status 401 and the
    header [WWW-Authenticate: Bearer]), and the same whatever the routes
    behind it are: they are not consulted. *)
Theorem refused_without_handler (now : instant) (request : Request)
    (e : exn) :
  skips_authentication request.(path) = false ->
  authenticate settings now request = Raise e ->
  In e refusals
  /\ (exists msg, e = HTTPException 401 (DetailStr msg)
                        [(lit "WWW-Authenticate", lit "Bearer")])
  /\ forall call_next,
       auth_middleware settings now request call_next = Raise e.
Proof.
  intros Hpath E.
  assert (Hin : In e refusals).
  { destruct (authenticate_cases now request)
      as [(e' & Hin & E') | (a & tk & c & _ & _ & _ & _ & _ & E')];
      rewrite E' in E; [ | discriminate ].
    inversion E; subst. exact Hin. }
  split; [ exact Hin | ]. split; [ now apply refusal_status | ].
  intros call_next. unfold auth_middleware. rewrite Hpath, E.
  cbn [bind try_except]. now rewrite (refusal_is_HTTPException e Hin).
Qed.

(** Behind a successful authentication, the middleware passes on what the
    routes answer, and an [HTTPException] they raise; any other exception
    of a route comes out as 500 "Authentication service error". *)
Theorem route_errors_masked (now : instant) (request request' : Request)
    (call_next : Request -> result Response) :
  skips_authentication request.(path) = false ->
  authenticate settings now request = Return request' ->
  (forall response, call_next request' = Return response ->
     auth_middleware settings now request call_next = Return response)
  /\ (forall code d hs,
        call_next request' = Raise (HTTPException code d hs) ->
        auth_middleware settings now request call_next
        = Raise (HTTPException code d hs))
  /\ (forall c msg, call_next request' = Raise (Exn c msg) ->
        auth_middleware settings now request call_next
        = Raise authentication_service_error).
Proof.
  intros Hpath E. unfold auth_middleware. rewrite Hpath, E. cbn [bind].
  repeat split; intros; match goal with H : _ = _ |- _ => rewrite H end;
    reflexivity.
Qed.

(** On a public path the routes answer directly, errors included. *)
Lemma public_path_forwards (now : instant) (request : Request)
    (call_next : Request -> result Response) :
  skips_authentication request.(path) = true ->
  auth_middleware settings now request call_next = call_next request.
Proof. intros Hpath. unfold auth_middleware. now rewrite Hpath. Qed.

(** The token is the second word of the header: whatever follows it
    after another blank is ignored. *)
Theorem words_after_token_ignored (now : instant) (r1 r2 : Request)
    (token rest : str) :
  ~ In 32%N token ->
  headers_get (lit "Authorization") r1.(headers)
    = Some (lit "Bearer " ++ token) ->
  headers_get (lit "Authorization") r2.(headers)
    = Some (lit "Bearer " ++ token ++ 32%N :: rest) ->
  outcome_state (authenticate settings now r2)
  = outcome_state (authenticate settings now r1).
Proof.
  intros Hword H1 H2.
  rewrite (authenticate_bearer now r1 token token H1)
    by (now rewrite split_on_one_word).
  rewrite (authenticate_bearer now r2 (token ++ 32%N :: rest) token H2)
    by (now rewrite split_on_word).
  destruct (decode now token (secret_key settings) [algorithm settings])
    as [claims | e]; [ | reflexivity ].
  destruct (c_exp claims) as [e | ]; [ | reflexivity ].
  destruct (negb (e =? 0) && (e * second <? now)); reflexivity.
Qed.

Hypothesis codec_reads_back : reads_back.



End WithCodec.

Lemma no_blank (s : str) : existsb (N.eqb 32) s = false -> ~ In 32%N s.
Proof.
  intros E Hin.
  assert (Ht : existsb (N.eqb 32) s = true).
  { apply existsb_exists. exists 32%N. split; [ exact Hin | reflexivity ]. }
  congruence.
Defined.

Lemma handler_needs_accepted_token_witness :
  exists authorization token claims,
    headers_get (lit "Authorization") (bearer fresh_token).(headers)
      = Some authorization
    /\ startswith authorization (lit "Bearer ") = true
    /\ nth_error (split_on 32%N authorization) 1 = Some token
    /\ @decode toy_codec t0 token (secret_key default_settings)
         [algorithm default_settings] = Return claims
    /\ (forall e, c_exp claims = Some e -> e = 0 \/ t0 <= e * second)
    /\ authenticated (bearer fresh_token)
         (TokenPayload_dict (issued alice utc_host t0 (minutes 30)))
       = authenticated (bearer fresh_token) claims.
Proof.
  exact (@handler_needs_accepted_token toy_codec default_settings t0
           (bearer fresh_token)
           (authenticated (bearer fresh_token)
              (TokenPayload_dict (issued alice utc_host t0 (minutes 30))))
           eq_refl).
Defined.

Lemma refused_without_handler_witness :
  In (unauthorized "Invalid authentication token") refusals
  /\ (exists msg,
        unauthorized "Invalid authentication token"
        = HTTPException 401 (DetailStr msg)
            [(lit "WWW-Authenticate", lit "Bearer")])
  /\ forall call_next,
       @auth_middleware toy_codec default_settings t0
         (bearer garbage_token) call_next
       = Raise (unauthorized "Invalid authentication token").
Proof.
  exact (@refused_without_handler toy_codec default_settings t0
           (bearer garbage_token)
           (unauthorized "Invalid authentication token")
           eq_refl eq_refl).
Defined.

Lemma route_errors_masked_witness :
  (forall response,
     failing_route
       (authenticated (bearer fresh_token)
          (TokenPayload_dict (issued alice utc_host t0 (minutes 30))))
     = Return response ->
     @auth_middleware toy_codec default_settings t0 (bearer fresh_token)
       failing_route = Return response)
  /\ (forall code d hs,
        failing_route
          (authenticated (bearer fresh_token)
             (TokenPayload_dict (issued alice utc_host t0 (minutes 30))))
        = Raise (HTTPException code d hs) ->
        @auth_middleware toy_codec default_settings t0 (bearer fresh_token)
          failing_route = Raise (HTTPException code d hs))
  /\ (forall c msg,
        failing_route
          (authenticated (bearer fresh_token)
             (TokenPayload_dict (issued alice utc_host t0 (minutes 30))))
        = Raise (Exn c msg) ->
        @auth_middleware toy_codec default_settings t0 (bearer fresh_token)
          failing_route = Raise authentication_service_error).
Proof.
  exact (@route_errors_masked toy_codec default_settings t0
           (bearer fresh_token)
           (authenticated (bearer fresh_token)
              (TokenPayload_dict (issued alice utc_host t0 (minutes 30))))
           failing_route eq_refl eq_refl).
Defined.

(** A route that fails behind a valid token: the client is told that the
    authentication service failed. *)
Example failing_route_behind_token :
  @auth_middleware toy_codec default_settings t0 (bearer fresh_token)
    failing_route
  = Raise authentication_service_error.
Proof. vm_compute. reflexivity. Qed.

Lemma words_after_token_ignored_witness :
  outcome_state
    (@authenticate toy_codec default_settings t0
       (with_authorization
          (lit "Bearer " ++ fresh_token ++ 32%N :: lit "and more")))
  = outcome_state
      (@authenticate toy_codec default_settings t0 (bearer fresh_token)).
Proof.
  apply (@words_after_token_ignored toy_codec default_settings t0
           (bearer fresh_token)
           (with_authorization
              (lit "Bearer " ++ fresh_token ++ 32%N :: lit "and more"))
           fresh_token (lit "and more")).
  - apply no_blank. vm_compute. reflexivity.
  - reflexivity.
  - reflexivity.
Defined.


End BearerFacts.

(** ** The route [POST /qr-code]: refusals and answers *)

Module RouteFacts.
Import Validators Generator.
Local Open Scope Z_scope.

Section WithLibraries.
Context `{UnicodeData} `{Libs}.

Lemma route_refuses_invalid_data (start_time end_time : instant)
    (request : QRCodeRequest) :
  is_valid (validate_qr_data request.(data)) = false ->
  QrEndpoint.generate_qr_code start_time end_time request
  = Raise (validation_error (message (validate_qr_data request.(data)))).
Proof.
  intros Hd.
  unfold QrEndpoint.generate_qr_code, QrEndpoint.respond,
    Generator.generate_qr_code.
  rewrite Hd. reflexivity.
Qed.

Lemma route_refuses_oversized_data (start_time end_time : instant)
    (request : QRCodeRequest) :
  is_valid (validate_qr_data request.(data)) = true ->
  is_valid (validate_capacity request.(data) request.(error_correction))
    = false ->
  QrEndpoint.generate_qr_code start_time end_time request
  = Raise (validation_error
             (message (validate_capacity request.(data)
                         request.(error_correction)))).
Proof.
  intros Hd Hc.
  unfold QrEndpoint.generate_qr_code, QrEndpoint.respond,
    Generator.generate_qr_code.
  rewrite Hd, Hc. reflexivity.
Qed.


(** No payload of more than 1663 characters can be generated at any
    level, although the request model and [validate_qr_data] allow 2000:
    the capacity check refuses it, and the route answers 400. *)
Theorem overlong_payload_is_400 (start_time end_time : instant)
    (request : QRCodeRequest) :
  (1663 < length request.(data))%nat ->
  is_valid (validate_capacity request.(data) request.(error_correction))
    = false
  /\ exists msg,
       QrEndpoint.generate_qr_code start_time end_time request
       = Raise (validation_error msg).
Proof.
  intros Hlen.
  assert (Hcap : is_valid (validate_capacity request.(data)
                             request.(error_correction)) = false).
  { unfold validate_capacity.
    destruct (encode_utf8 request.(data)) as [bs | ] eqn:Hbs;
      [ | reflexivity ].
    pose proof (encode_utf8_length _ _ Hbs) as [Hlow _].
    replace (Nat.ltb (capacity_limits request.(error_correction))
                     (length bs)) with true; [ reflexivity | ].
    symmetry. apply Nat.ltb_lt.
    destruct request.(error_correction); cbv [capacity_limits]; lia. }
  split; [ exact Hcap | ].
  destruct (is_valid (validate_qr_data request.(data))) eqn:Hd.
  - eexists.
    exact (route_refuses_oversized_data start_time end_time request Hd Hcap).
  - eexists.
    exact (route_refuses_invalid_data start_time end_time request Hd).
Qed.


End WithLibraries.

(** The empty payload and a payload beyond level H, through the route. *)
Example refused_payload_samples :
  @QrEndpoint.generate_qr_code ascii_digits_only working_libs t0 t0
    {| data := []; size := MEDIUM; format := PNG;
       error_correction := M; output_format := BINARY |}
  = Raise (validation_error (lit "Data cannot be empty"))
  /\ @QrEndpoint.generate_qr_code ascii_digits_only working_libs t0 t0
       {| data := oversized; size := MEDIUM; format := SVG;
          error_correction := H; output_format := BASE64 |}
     = Raise (validation_error
                (lit "Data too large for error correction level H. Maximum: 713 bytes, got: 714")).
Proof. split; vm_compute; reflexivity. Qed.

Lemma overlong_payload_is_400_witness :
  is_valid (validate_capacity (repeat 97%N 1664) L) = false
  /\ exists msg,
       @QrEndpoint.generate_qr_code ascii_digits_only working_libs t0 t0
         {| data := repeat 97%N 1664; size := MEDIUM; format := PNG;
            error_correction := L; output_format := BINARY |}
       = Raise (validation_error msg).
Proof.
  apply (@overlong_payload_is_400 ascii_digits_only working_libs t0 t0
           {| data := repeat 97%N 1664; size := MEDIUM; format := PNG;
              error_correction := L; output_format := BINARY |}).
  cbn [data]. rewrite repeat_length. lia.
Defined.


End RouteFacts.

(** ** PDF requests inside the service *)

Module PdfFacts.
Import Validators Generator.
Local Open Scope Z_scope.



End PdfFacts.

(** ** The SVG document: the modules stay inside the canvas *)

Module CanvasFacts.
Import Generator.
Local Open Scope nat_scope.

Lemma module_at_bounds (m : matrix) (row col : nat) :
  module_at m row col = true ->
  row < length m /\ col < length (nth row m []).
Proof.
  unfold module_at. intros E.
  destruct (Nat.lt_ge_cases row (length m)) as [Hrow | Hrow].
  - split; [ exact Hrow | ].
    destruct (Nat.lt_ge_cases col (length (nth row m []))) as [Hcol | Hcol];
      [ exact Hcol | ].
    rewrite (nth_overflow _ _ Hcol) in E. discriminate.
  - rewrite (nth_overflow _ _ Hrow) in E. destruct col; discriminate.
Qed.

(** For a square matrix, every black rectangle of the document lies
    inside the canvas and leaves the border of four modules (40 units)
    free on every side: the document is the three header lines, the
    rectangles, and the closing tag, and each rectangle has its corner
    [(x, y)] with [40 <= x], [x + 10 <= width - 40], and the same for
    [y]. *)
Theorem svg_modules_inside_canvas (m : matrix) :
  square m ->
  exists modules : list str,
    svg_lines_of m
    = svg_header ((length m + 2 * 4) * 10) ++ modules ++ [lit "</svg>"]
    /\ forall line, In line modules ->
         exists x y,
           line = svg_module x y
           /\ 40 <= x /\ x + 10 <= (length m + 2 * 4) * 10 - 40
           /\ 40 <= y /\ y + 10 <= (length m + 2 * 4) * 10 - 40.
Proof.
  intros Hsq. exists (matrix_lines 0 m).
  split; [ apply SvgFacts.svg_lines_of_shape | ].
  intros line Hin.
  apply SvgFacts.matrix_lines_In in Hin as (row & col & _ & Hmod & ->).
  rewrite Nat.sub_0_r in Hmod.
  apply module_at_bounds in Hmod as [Hrow Hcol].
  assert (Hlen : length (nth row m []) = length m).
  { unfold square in Hsq. rewrite Forall_forall in Hsq.
    apply Hsq. now apply nth_In. }
  rewrite Hlen in Hcol.
  exists ((col + border) * box_size), ((row + border) * box_size).
  split; [ reflexivity | ].
  unfold border, box_size. lia.
Qed.

Lemma svg_modules_inside_canvas_witness :
  exists modules : list str,
    svg_lines_of sample_matrix
    = svg_header ((length sample_matrix + 2 * 4) * 10)
      ++ modules ++ [lit "</svg>"]
    /\ forall line, In line modules ->
         exists x y,
           line = svg_module x y
           /\ 40 <= x /\ x + 10 <= (length sample_matrix + 2 * 4) * 10 - 40
           /\ 40 <= y /\ y + 10 <= (length sample_matrix + 2 * 4) * 10 - 40.
Proof.
  apply (svg_modules_inside_canvas sample_matrix).
  repeat constructor.
Defined.

(** A row that is longer than the matrix is high reaches into the
    border: the squareness is needed. *)
Example ragged_matrix_leaves_canvas :
  In (svg_module 60 40) (svg_lines_of [[false; false; true]]).
Proof. vm_compute. tauto. Qed.

End CanvasFacts.
